(** * ORBIT Power BI e-mail automation: a shallow embedding of [send_emails.py]

    The development follows the script top-down: text helpers standing for
    the Python [str] methods the script calls, the spreadsheet frame handed
    over by [pd.read_excel], the configuration module, an effect monad for
    logging, mail hand-off and exceptions, then [parse_xlsx],
    [send_via_outlook], [send_via_smtp], [write_csv_log] and [main].

    Text is a Stdlib [string] of 8-bit characters: the UTF-8 bytes of the
    Python [str].  [str.strip] removes the whitespace characters of Unicode,
    which take one to three bytes.  [str.lower] and [str.upper] map ASCII
    letters and leave every other byte alone; the script compares their
    results with [nan] and with [OUTLOOK] only, and no character outside
    ASCII has a lower-case form with [n] or [a] in it or an upper-case form
    made of letters of [OUTLOOK], so both comparisons come out as in Python. *)

From stdpp Require Import gmap strings list pretty.
From Stdlib Require Import Ascii ZArith Strings.Byte.

Open Scope string_scope.

(** ** Python [str] helpers *)

Module PyStr.

(** The text with the given UTF-8 bytes. *)
Definition utf8 (bytes : list nat) : string :=
  foldr (λ n s, String (ascii_of_nat n) s) EmptyString bytes.

(** The characters [c] for which [c.isspace()] holds, in UTF-8: U+0009 to
    U+000D, U+001C to U+0020, U+0085, U+00A0, U+1680, U+2000 to U+200A,
    U+2028, U+2029, U+202F, U+205F and U+3000. *)
Definition whitespace : list string :=
  utf8 <$> [[9]; [10]; [11]; [12]; [13]; [28]; [29]; [30]; [31]; [32];
            [194; 133]; [194; 160]; [225; 154; 128];
            [226; 128; 128]; [226; 128; 129]; [226; 128; 130]; [226; 128; 131];
            [226; 128; 132]; [226; 128; 133]; [226; 128; 134]; [226; 128; 135];
            [226; 128; 136]; [226; 128; 137]; [226; 128; 138];
            [226; 128; 168]; [226; 128; 169]; [226; 128; 175];
            [226; 129; 159]; [227; 128; 128]].

(** [s[len(p):]] when [s.startswith(p)] *)
Fixpoint strip_prefix (p s : string) : option string :=
  match p, s with
  | EmptyString, _ => Some s
  | String a p', String b s' => if Ascii.eqb a b then strip_prefix p' s' else None
  | String _ _, EmptyString => None
  end.

(** [s[:len(s) - len(p)]] when [s.endswith(p)] *)
Fixpoint strip_suffix (p s : string) : option string :=
  if String.eqb s p then Some EmptyString
  else match s with
       | EmptyString => None
       | String a s' => String a <$> strip_suffix p s'
       end.

(** The first result that [f] gives on the entries of a table. *)
Definition first_some {A B} (f : A → option B) (table : list A) : option B :=
  head (omap f table).

(** The text after the whitespace character that [s] starts with, and the
    text before the one it ends with. *)
Definition skip_space (s : string) : option string :=
  first_some (λ w, strip_prefix w s) whitespace.

Definition skip_space_end (s : string) : option string :=
  first_some (λ w, strip_suffix w s) whitespace.

(** [while skip(s) is not None: s = skip(s)], for at most [n] rounds. *)
Fixpoint skip_all (skip : string → option string) (n : nat) (s : string) : string :=
  match n with
  | 0 => s
  | S n' => match skip s with
            | Some t => skip_all skip n' t
            | None => s
            end
  end.

(** [c.lower()] and [c.upper()] for an ASCII letter; every other byte stays. *)
Definition lower_char (c : ascii) : ascii :=
  let n := nat_of_ascii c in
  if (65 <=? n)%nat && (n <=? 90)%nat then ascii_of_nat (n + 32) else c.

Definition upper_char (c : ascii) : ascii :=
  let n := nat_of_ascii c in
  if (97 <=? n)%nat && (n <=? 122)%nat then ascii_of_nat (n - 32) else c.

Fixpoint map_chars (f : ascii → ascii) (s : string) : string :=
  match s with
  | EmptyString => EmptyString
  | String c t => String (f c) (map_chars f t)
  end.

(** [s.lower()] and [s.upper()], as far as ASCII letters go *)
Definition lower : string → string := map_chars lower_char.
Definition upper : string → string := map_chars upper_char.

(** [s.lstrip()], [s.rstrip()] and [s.strip()]: whitespace characters are
    removed one by one; every round takes at least one byte away, so the
    length of the text bounds the number of rounds. *)
Definition lstrip (s : string) : string := skip_all skip_space (String.length s) s.
Definition rstrip (s : string) : string := skip_all skip_space_end (String.length s) s.
Definition strip (s : string) : string := rstrip (lstrip s).

(** [bool(s)]: a string is truthy when it is not empty. *)
Definition truthy (s : string) : bool :=
  match s with EmptyString => false | String _ _ => true end.

(** [c in s] for a one-character needle. *)
Fixpoint contains_char (c : ascii) (s : string) : bool :=
  match s with
  | EmptyString => false
  | String a t => if Ascii.eqb a c then true else contains_char c t
  end.

(** [x in (a, b, ...)] for a tuple of strings. *)
Definition in_tuple (x : string) (t : list string) : bool :=
  existsb (String.eqb x) t.

(** [needle in s] for strings. *)
Fixpoint is_infix (needle s : string) : bool :=
  if String.prefix needle s then true
  else match s with
       | EmptyString => false
       | String _ t => is_infix needle t
       end.

End PyStr.

(** ** The frame returned by [pd.read_excel(filepath, header=None)] *)

(** A cell is either missing ([pd.notna] is false) or holds a value, kept
    here as the text [str(value)] that the script reads from it. *)
Inductive cell :=
| NA
| Val (text : string).

(** A row of the frame.  A frame that has rows has at least one column, so
    [row.iloc[0]] always exists; [iloc_rest] holds columns 1, 2, ... *)
Record row := Row { iloc0 : cell; iloc_rest : list cell }.

Definition frame := list row.

(** ** Exceptions *)

Inductive pyclass :=
| Exception
| OSError
| FileNotFoundError
| PermissionError
| ImportError
| ValueError
| SMTPException
| com_error.

(** [issubclass c d] on the part of the Python hierarchy the script meets. *)
Definition issubclass (c d : pyclass) : bool :=
  match d, c with
  | Exception, _ => true
  | OSError, (OSError | FileNotFoundError | PermissionError | SMTPException) => true
  | FileNotFoundError, FileNotFoundError => true
  | PermissionError, PermissionError => true
  | ImportError, ImportError => true
  | ValueError, ValueError => true
  | SMTPException, SMTPException => true
  | com_error, com_error => true
  | _, _ => false
  end.

(** A raised exception: its class and [str(e)]. *)
Record exn := Exn { exn_class : pyclass; exn_str : string }.

(** [except cls:] catches [e] when [isinstance(e, cls)]. *)
Definition isinstance (e : exn) (cls : pyclass) : bool :=
  issubclass (exn_class e) cls.

(** ** Configuration ([config.py], after [config_template.py]) *)

Record Config := {
  SEND_METHOD   : string;
  SMTP_HOST     : string;
  SMTP_PORT     : Z;
  SMTP_USE_TLS  : bool;
  SMTP_USER     : string;
  SMTP_PASSWORD : string;
  SMTP_FROM     : string;
  EMAIL_DOMAIN  : string;
  CC_EMAIL      : string
}.

(** ** Records, mail items and outcomes *)

(** The dict returned by [parse_xlsx]. *)
Record record := {
  file      : string;
  ritm      : string;
  aide_id   : string;
  aide_name : string;
  to_email  : string
}.

(** One row of [results] in [main]: the record's keys plus status and error. *)
Record Outcome := {
  o_file      : string;
  o_ritm      : string;
  o_aide_id   : string;
  o_aide_name : string;
  o_to_email  : string;
  status      : string;
  error       : string
}.

(** The Outlook [MailItem] as the script fills it in. *)
Record MailItem := {
  mi_To          : string;
  mi_CC          : option string;
  mi_Subject     : string;
  mi_Attachments : list (string * string);  (* path, PR_ATTACH_CONTENT_ID *)
  mi_HTMLBody    : string
}.

(** The inline image part of the MIME message. *)
Record MimeImage := {
  img_data        : list byte;
  img_subtype     : string;
  img_content_id  : string;
  img_disposition : string;
  img_filename    : string
}.

(** The [MIMEMultipart("related")] message built by [send_via_smtp]. *)
Record MimeMessage := {
  msg_From    : string;
  msg_To      : string;
  msg_Subject : string;
  msg_Cc      : option string;
  msg_html    : string;
  msg_images  : list MimeImage
}.

(** ** Effects: the log, the mail hand-off, exceptions *)

Inductive level := INFO | WARNING | ERROR.

Inductive event :=
| Log (lvl : level) (text : string)
| OutlookDispatch
| OutlookSend (m : MailItem)
| SmtpConnect (host : string) (port : Z)
| SmtpStartTls
| SmtpLogin (user password : string)
| SmtpSendmail (from_addr : string) (recipients : list string) (m : MimeMessage)
| CsvWrite (path : string) (rows : list Outcome).

Inductive res (A : Type) :=
| Ret (a : A)
| Raise (e : exn).
Arguments Ret {A} a.
Arguments Raise {A} e.

(** A computation: the events it performed, in order, and how it ended. *)
Definition M (A : Type) : Type := list event * res A.

Definition trace {A} (m : M A) : list event := fst m.
Definition result {A} (m : M A) : res A := snd m.

#[global] Instance M_ret : MRet M := λ A a, ([], Ret a).

#[global] Instance M_bind : MBind M := λ A B f m,
  match m with
  | (t, Ret a) => ((t ++ fst (f a))%list, snd (f a))
  | (t, Raise e) => (t, Raise e)
  end.

Definition raise {A} (e : exn) : M A := ([], Raise e).

Definition emit (ev : event) : M unit := ([ev], Ret ()).

(** [try: body  except cls as e: handler e] *)
Definition try_except {A} (body : M A) (cls : pyclass) (handler : exn → M A) : M A :=
  match body with
  | (t, Ret a) => (t, Ret a)
  | (t, Raise e) =>
      if isinstance e cls then ((t ++ fst (handler e))%list, snd (handler e))
      else (t, Raise e)
  end.

(** An external call that either succeeds or raises the given exception. *)
Definition external (fault : option exn) : M unit :=
  match fault with
  | None => mret ()
  | Some e => raise e
  end.

Definition log_info (s : string) : M unit := emit (Log INFO s).
Definition log_warning (s : string) : M unit := emit (Log WARNING s).
Definition log_error (s : string) : M unit := emit (Log ERROR s).

(** ** The world outside the script *)

(** One input file: its name and what [pd.read_excel] does with it. *)
Record Document := {
  doc_name   : string;
  read_excel : res frame
}.

(** What the Outlook automation surface does during one send. *)
Record OutlookScript := {
  ol_dispatch     : option exn;   (* win32.Dispatch("outlook.application") *)
  ol_create_item  : option exn;   (* outlook.CreateItem(0) *)
  ol_set_to       : option exn;   (* mail.To = ... *)
  ol_set_cc       : option exn;   (* mail.CC = ... *)
  ol_set_subject  : option exn;   (* mail.Subject = ... *)
  ol_attach       : option exn;   (* mail.Attachments.Add(path), something being at path *)
  ol_set_property : option exn;   (* attachment.PropertyAccessor.SetProperty(...) *)
  ol_set_body     : option exn;   (* mail.HTMLBody = ... *)
  ol_send         : option exn    (* mail.Send() *)
}.

(** What the SMTP server does during one session. *)
Record SmtpScript := {
  smtp_connect  : option exn;   (* smtplib.SMTP(host, port) *)
  smtp_starttls : option exn;   (* server.starttls() *)
  smtp_login    : option exn;   (* server.login(user, password) *)
  smtp_sendmail : option exn;   (* server.sendmail(...) *)
  smtp_quit     : option exn    (* QUIT, sent when the with-block is left *)
}.

Record World := {
  INPUT_DIR          : string;            (* str(INPUT_DIR) *)
  BANNER_PATH        : string;            (* str(BANNER_PATH) *)
  html_template      : string → string;   (* the f-string of build_html_body *)
  csv_path           : string;            (* str(csv_path) in write_csv_log *)
  open_csv           : option exn;        (* open(csv_path, "w") and the writes to it *)
  open_banner        : res (list byte);   (* open(BANNER_PATH, "rb").read() *)
  win32com_installed : bool;              (* import win32com.client succeeds *)
  outlook            : record → OutlookScript;
  smtp               : record → SmtpScript
}.

(** [mail.Attachments.Add(str(BANNER_PATH))].  Outlook cannot attach what is
    not there: the call raises when [open] reports [FileNotFoundError] for
    the path.  In every other case, the file being readable or [open]
    failing for another reason, the call goes as Outlook decides. *)
Definition attachments_add (w : World) (r : record) : option exn :=
  match open_banner w with
  | Ret _ => ol_attach (outlook w r)
  | Raise e =>
      if isinstance e FileNotFoundError
      then Some (Exn com_error "Cannot find this file.")
      else ol_attach (outlook w r)
  end.

(** ** [parse_xlsx] *)

Import PyStr.

(** [pd.notna(c)] *)
Definition notna (c : cell) : bool :=
  match c with NA => false | Val _ => true end.

(** [str(c)] *)
Definition str (c : cell) : string :=
  match c with NA => "nan" | Val t => t end.

(** [str(row.iloc[0]).strip() if pd.notna(row.iloc[0]) else ""] *)
Definition row_key (r : row) : string :=
  if notna (iloc0 r) then strip (str (iloc0 r)) else "".

(** [str(row.iloc[1]).strip() if len(row) > 1 and pd.notna(row.iloc[1]) else ""];
    [len(row) > 1] says that column 1 exists. *)
Definition row_val (r : row) : string :=
  match iloc_rest r with
  | c1 :: _ => if notna c1 then strip (str c1) else ""
  | [] => ""
  end.

(** The test guarding [data[key] = val]. *)
Definition row_kept (r : row) : bool :=
  truthy (row_key r) && truthy (row_val r)
  && negb (in_tuple (lower (row_val r)) ["nan"; ""]).

(** One iteration of the loop over [df.iterrows()]. *)
Definition store_row (data : gmap string string) (r : row) : gmap string string :=
  if row_kept r then <[row_key r := row_val r]> data else data.

(** The lookup built by the loop, starting from [data = {}]. *)
Definition build_data (df : frame) : gmap string string :=
  foldl store_row ∅ df.

(** [data.get(k, "")] *)
Definition get (data : gmap string string) (k : string) : string :=
  default "" (data !! k).

(** [all(xs)] on strings *)
Definition all (xs : list string) : bool := forallb truthy xs.

Definition parse_xlsx (cfg : Config) (filepath : Document) : M (option record) :=
  odf ← try_except
          (df ← ([], read_excel filepath); mret (Some df))
          Exception
          (λ e, log_error ("Cannot open " ++ doc_name filepath ++ ": " ++ exn_str e);;
                mret None);
  match odf with
  | None => mret None
  | Some df =>
      let data := build_data df in
      let ritm          := get data "RITM" in
      let aide_id       := get data "AIDE_ID" in
      let aide_name     := get data "AIDE NAME" in
      let app_owner_raw := get data "Application Owner" in
      if negb (all [ritm; aide_id; aide_name; app_owner_raw]) then
        log_warning ("[" ++ doc_name filepath ++ "] Missing fields — "
                     ++ "RITM='" ++ ritm ++ "' AIDE_ID='" ++ aide_id
                     ++ "' AIDE_NAME='" ++ aide_name
                     ++ "' Owner='" ++ app_owner_raw ++ "'");;
        mret None
      else
        let to_email :=
          if contains_char "@" app_owner_raw then app_owner_raw
          else app_owner_raw ++ "@" ++ EMAIL_DOMAIN cfg in
        mret (Some {| file := doc_name filepath; ritm := ritm; aide_id := aide_id;
                      aide_name := aide_name; to_email := to_email |})
  end.

(** ** [build_html_body] *)

Definition build_html_body (w : World) : string := html_template w "orbit_banner".

(** ** [send_via_outlook] *)

(** Lines 246-267: the body of the second [try] block. *)
Definition outlook_session (w : World) (cfg : Config) (r : record) (html_body : string)
  : M bool :=
  emit OutlookDispatch;;
  external (ol_dispatch (outlook w r));;
  external (ol_create_item (outlook w r));;
  external (ol_set_to (outlook w r));;
  (if truthy (CC_EMAIL cfg) then external (ol_set_cc (outlook w r)) else mret ());;
  external (ol_set_subject (outlook w r));;
  let mail := {| mi_To := to_email r;
                 mi_CC := if truthy (CC_EMAIL cfg) then Some (CC_EMAIL cfg) else None;
                 mi_Subject :=
                   "Welcome to ORBIT Power BI - Your Guide to Getting Started - "
                   ++ "[" ++ ritm r ++ "][" ++ aide_id r ++ "][" ++ aide_name r ++ "]";
                 mi_Attachments := [];
                 mi_HTMLBody := "" |} in
  external (attachments_add w r);;
  external (ol_set_property (outlook w r));;
  external (ol_set_body (outlook w r));;
  let mail := {| mi_To := mi_To mail; mi_CC := mi_CC mail;
                 mi_Subject := mi_Subject mail;
                 mi_Attachments := [(BANNER_PATH w, "orbit_banner")];
                 mi_HTMLBody := html_body |} in
  external (ol_send (outlook w r));;
  emit (OutlookSend mail);;
  log_info ("[SENT] " ++ file r ++ " → " ++ to_email r);;
  mret true.

Definition send_via_outlook (w : World) (cfg : Config) (r : record) (html_body : string)
  : M bool :=
  imported ← try_except
               (external (if win32com_installed w then None
                          else Some (Exn ImportError "No module named 'win32com'"));;
                mret true)
               ImportError
               (λ _, log_error "win32com not available. Install with: pip install pywin32";;
                     mret false);
  if negb imported then mret false
  else
    try_except
      (outlook_session w cfg r html_body)
      Exception
      (λ e, log_error ("[FAILED] " ++ file r ++ " → " ++ to_email r ++ " : " ++ exn_str e);;
            mret false).

(** ** [send_via_smtp] *)

(** [with smtplib.SMTP(...) as server: body]: leaving the block sends QUIT,
    whose failure replaces whatever the body did. *)
Definition with_server {A} (quit : option exn) (body : M A) : M A :=
  match body, quit with
  | (t, _), Some e => (t, Raise e)
  | _, None => body
  end.

(** Lines 281-295: subject, headers and the HTML alternative. *)
Definition smtp_headers (cfg : Config) (r : record) (html_body : string) : MimeMessage :=
  let subject :=
    "Welcome to ORBIT Power BI - Your Guide to Getting Started - "
    ++ "[" ++ ritm r ++ "][" ++ aide_id r ++ "][" ++ aide_name r ++ "]" in
  {| msg_From := SMTP_FROM cfg;
     msg_To := to_email r;
     msg_Subject := subject;
     msg_Cc := if truthy (CC_EMAIL cfg) then Some (CC_EMAIL cfg) else None;
     msg_html := html_body;
     msg_images := [] |}.

(** [msg.attach(img)] *)
Definition attach (msg : MimeMessage) (img : MimeImage) : MimeMessage :=
  {| msg_From := msg_From msg; msg_To := msg_To msg; msg_Subject := msg_Subject msg;
     msg_Cc := msg_Cc msg; msg_html := msg_html msg;
     msg_images := (msg_images msg ++ [img])%list |}.

(** Lines 297-305: embed the banner image. *)
Definition smtp_embed_banner (w : World) (msg : MimeMessage) : M MimeMessage :=
  try_except
    (data ← ([], open_banner w);
     let img := {| img_data := data; img_subtype := "jpeg";
                   img_content_id := "<orbit_banner>";
                   img_disposition := "inline";
                   img_filename := "orbit_banner.jpeg" |} in
     mret (attach msg img))
    FileNotFoundError
    (λ _, log_warning "Banner image not found — email will send without it.";;
          mret msg).

(** Lines 308-316: the SMTP session. *)
Definition smtp_session (w : World) (cfg : Config) (r : record) (msg : MimeMessage)
  : M unit :=
  emit (SmtpConnect (SMTP_HOST cfg) (SMTP_PORT cfg));;
  external (smtp_connect (smtp w r));;
  with_server (smtp_quit (smtp w r))
    ((if SMTP_USE_TLS cfg
      then emit SmtpStartTls;; external (smtp_starttls (smtp w r))
      else mret ());;
     (if truthy (SMTP_USER cfg) && truthy (SMTP_PASSWORD cfg)
      then emit (SmtpLogin (SMTP_USER cfg) (SMTP_PASSWORD cfg));;
           external (smtp_login (smtp w r))
      else mret ());;
     let recipients := [to_email r] in
     let recipients :=
       if truthy (CC_EMAIL cfg) then (recipients ++ [CC_EMAIL cfg])%list
       else recipients in
     external (smtp_sendmail (smtp w r));;
     emit (SmtpSendmail (SMTP_FROM cfg) recipients msg)).

Definition send_via_smtp (w : World) (cfg : Config) (r : record) (html_body : string)
  : M bool :=
  msg ← smtp_embed_banner w (smtp_headers cfg r html_body);
  try_except
    (smtp_session w cfg r msg;;
     log_info ("[SENT] " ++ file r ++ " → " ++ to_email r);;
     mret true)
    Exception
    (λ e, log_error ("[FAILED] " ++ file r ++ " → " ++ to_email r ++ " : " ++ exn_str e);;
          mret false).

(** ** [write_csv_log] *)

(** The file is written inside [with open(csv_path, "w", ...) as f]; nothing
    around it catches what opening or writing raises. *)
Definition write_csv_log (w : World) (results : list Outcome) : M unit :=
  external (open_csv w);;
  emit (CsvWrite (csv_path w) results);;
  log_info ("Results saved → " ++ csv_path w).

(** ** [main] *)

(** What [main] holds when it reaches its last line. *)
Record RunSummary := {
  results : list Outcome;
  sent    : nat;
  failed  : nat;
  skipped : nat
}.

(** [for x in xs: s = body(s, x)] *)
Fixpoint for_loop {A S} (body : S → A → M S) (xs : list A) (s : S) : M S :=
  match xs with
  | [] => mret s
  | x :: xs' => s' ← body s x; for_loop body xs' s'
  end.

(** [cfg.SEND_METHOD.upper() == "OUTLOOK"] *)
Definition uses_outlook (cfg : Config) : bool :=
  String.eqb (upper (SEND_METHOD cfg)) "OUTLOOK".

(** The transport chosen at lines 355-358. *)
Definition send (w : World) (cfg : Config) (r : record) (html_body : string) : M bool :=
  if uses_outlook cfg
  then send_via_outlook w cfg r html_body
  else send_via_smtp w cfg r html_body.

(** The dict that one pass through the loop body appends to [results]. *)
Definition file_outcome (w : World) (cfg : Config) (html_body : string)
    (xlsx_path : Document) : M Outcome :=
  log_info ("Processing: " ++ doc_name xlsx_path);;
  rec ← parse_xlsx cfg xlsx_path;
  match rec with
  | None =>
      mret {| o_file := doc_name xlsx_path; o_ritm := ""; o_aide_id := "";
              o_aide_name := ""; o_to_email := ""; status := "SKIPPED";
              error := "Missing required fields" |}
  | Some r =>
      ok ← send w cfg r html_body;
      mret {| o_file := file r; o_ritm := ritm r; o_aide_id := aide_id r;
              o_aide_name := aide_name r; o_to_email := to_email r;
              status := if (ok : bool) then "SENT" else "FAILED";
              error := if ok then "" else "See log" |}
  end.

(** The body of the loop over [xlsx_files]: [results.append(...)]. *)
Definition process_file (w : World) (cfg : Config) (html_body : string)
    (results : list Outcome) (xlsx_path : Document) : M (list Outcome) :=
  o ← file_outcome w cfg html_body xlsx_path;
  mret (results ++ [o])%list.

(** [sum(1 for r in results if r["status"] == s)] *)
Definition count_status (s : string) (results : list Outcome) : nat :=
  length (List.filter (λ r, String.eqb (status r) s) results).

(** [main] takes the sorted listing of [INPUT_DIR.glob("*.xlsx")]; it yields
    [None] when it returns early on an empty listing. *)
Definition main (w : World) (cfg : Config) (xlsx_files : list Document)
  : M (option RunSummary) :=
  match xlsx_files with
  | [] =>
      log_warning ("No .xlsx files found in " ++ INPUT_DIR w);;
      mret None
  | _ =>
      log_info ("Found " ++ pretty (length xlsx_files) ++ " file(s) in " ++ INPUT_DIR w);;
      let html_body := build_html_body w in
      results ← for_loop (process_file w cfg html_body) xlsx_files [];
      write_csv_log w results;;
      let sent    := count_status "SENT" results in
      let failed  := count_status "FAILED" results in
      let skipped := count_status "SKIPPED" results in
      log_info ("Done — Sent: " ++ pretty sent ++ " | Failed: " ++ pretty failed
                ++ " | Skipped: " ++ pretty skipped);;
      mret (Some {| results := results; sent := sent; failed := failed;
                    skipped := skipped |})
  end.

(** ** Vocabulary of the statements *)

(** The four keys [parse_xlsx] reads out of the lookup, and their values. *)
Definition required_keys : list string :=
  ["RITM"; "AIDE_ID"; "AIDE NAME"; "Application Owner"].

Definition required_values (df : frame) : list string :=
  get (build_data df) <$> required_keys.


(** The required keys for which the lookup has nothing. *)
Definition missing_fields (df : frame) : list string :=
  List.filter (λ k, negb (truthy (get (build_data df) k))) required_keys.

(** The texts of a list put end to end. *)
Definition join (ws : list string) : string := foldr String.append "" ws.

(** The text is made of whitespace characters only. *)
Definition blank (s : string) : Prop :=
  ∃ ws, Forall (λ w, w ∈ whitespace) ws ∧ s = join ws.

Definition starts_with (p s : string) : Prop := ∃ t, s = p ++ t.
Definition ends_with (p s : string) : Prop := ∃ t, s = t ++ p.

(** [t] is [s] without the whitespace at its two ends: [s] is [t] between
    two blank texts, and [t] neither starts nor ends with a whitespace
    character. *)
Definition trims_to (s t : string) : Prop :=
  ∃ l r, s = l ++ t ++ r ∧ blank l ∧ blank r
    ∧ (∀ w, w ∈ whitespace → ¬ starts_with w t)
    ∧ (∀ w, w ∈ whitespace → ¬ ends_with w t).

(** The placeholder for a cell without value, in any letter case. *)
Definition placeholder (v : string) : Prop :=
  v ∈ ["nan"; "naN"; "nAn"; "nAN"; "Nan"; "NaN"; "NAn"; "NAN"].

(** The text contains the character [@]. *)
Definition has_at (s : string) : Prop := ∃ s1 s2, s = s1 ++ "@" ++ s2.

(** The cell in column [i] of a row, [NA] when the row is too short. *)
Definition column (i : nat) (r : row) : cell :=
  default NA ((iloc0 r :: iloc_rest r) !! i).

(** A cell read as text: blank or absent cells are empty, others trimmed. *)
Definition trimmed (c : cell) : string :=
  match c with NA => "" | Val t => strip t end.

(** The cell reads as the text [t]: a blank or absent cell reads as the
    empty text, any other cell as its text without the whitespace at its
    two ends. *)
Definition reads (c : cell) (t : string) : Prop :=
  match c with NA => t = "" | Val s => trims_to s t end.

(** The row has the key [k] in its first column and the value [v] in its
    second. *)
Definition carries (r : row) (k v : string) : Prop :=
  reads (column 0 r) k ∧ reads (column 1 r) v.


(** [v] is the value of the last row of the sheet that fills in [k]. *)
Definition last_filled (df : list row) (k v : string) : Prop :=
  ∃ pre r post, df = (pre ++ r :: post)%list
    ∧ carries r k v ∧ k ≠ "" ∧ v ≠ "" ∧ ¬ placeholder v
    ∧ Forall (λ r', ∀ v', carries r' k v' → v' = "" ∨ placeholder v') post.

(** The steps of one SMTP session that come before the hand-off, in order:
    the event that marks the attempt, and what the server makes of it. *)
Definition smtp_steps (w : World) (cfg : Config) (r : record)
  : list (event * option exn) :=
  ([(SmtpConnect (SMTP_HOST cfg) (SMTP_PORT cfg), smtp_connect (smtp w r))]
   ++ (if SMTP_USE_TLS cfg then [(SmtpStartTls, smtp_starttls (smtp w r))] else [])
   ++ (if truthy (SMTP_USER cfg) && truthy (SMTP_PASSWORD cfg)
       then [(SmtpLogin (SMTP_USER cfg) (SMTP_PASSWORD cfg), smtp_login (smtp w r))]
       else []))%list.

(** What the server makes of the calls of one session up to the hand-off:
    the steps above, then [sendmail]. *)
Definition smtp_calls (w : World) (cfg : Config) (r : record) : list (option exn) :=
  ((snd <$> smtp_steps w cfg r) ++ [smtp_sendmail (smtp w r)])%list.

(** The attempts made: every step up to and including the first that
    fails. *)
Fixpoint attempted (steps : list (event * option exn)) : list event :=
  match steps with
  | [] => []
  | (ev, None) :: rest => ev :: attempted rest
  | (ev, Some _) :: _ => [ev]
  end.

(** Events in which the script talks to a mail transport. *)
Definition is_transport_event (ev : event) : bool :=
  match ev with
  | Log _ _ | CsvWrite _ _ => false
  | _ => true
  end.

(** The subjects of the messages handed to a transport. *)
Definition subjects_sent (t : list event) : list string :=
  omap (λ ev, match ev with
              | OutlookSend m => Some (mi_Subject m)
              | SmtpSendmail _ _ m => Some (msg_Subject m)
              | _ => None
              end) t.

(** The messages handed to the SMTP server and to Outlook. *)
Definition smtp_sent (t : list event) : list MimeMessage :=
  omap (λ ev, match ev with SmtpSendmail _ _ m => Some m | _ => None end) t.

Definition outlook_sent (t : list event) : list MailItem :=
  omap (λ ev, match ev with OutlookSend m => Some m | _ => None end) t.

Definition status_known (o : Outcome) : Prop :=
  status o = "SENT" ∨ status o = "FAILED" ∨ status o = "SKIPPED".

(** What [main] holds at its last line for the rows [l]. *)
Definition summary_of (l : list Outcome) : RunSummary :=
  {| results := l; sent := count_status "SENT" l; failed := count_status "FAILED" l;
     skipped := count_status "SKIPPED" l |}.

(** The outcomes a finished run has recorded. *)
Definition outcomes_of (s : option RunSummary) : list Outcome :=
  match s with None => [] | Some s => results s end.

(** Reading the banner either works or reports that the file is absent. *)
Definition banner_safe (w : World) : Prop :=
  match open_banner w with
  | Ret _ => True
  | Raise e => isinstance e FileNotFoundError = true
  end.

(** The banner image file is absent. *)
Definition banner_absent (w : World) : Prop :=
  ∃ e, open_banner w = Raise e ∧ isinstance e FileNotFoundError = true.

(** The row appended for a file from which no record came. *)
Definition skipped_row (name : string) : Outcome :=
  {| o_file := name; o_ritm := ""; o_aide_id := ""; o_aide_name := "";
     o_to_email := ""; status := "SKIPPED"; error := "Missing required fields" |}.

(** The row appended for a record whose send returned [False]. *)
Definition failed_row (r : record) : Outcome :=
  {| o_file := file r; o_ritm := ritm r; o_aide_id := aide_id r;
     o_aide_name := aide_name r; o_to_email := to_email r;
     status := "FAILED"; error := "See log" |}.

(** The transport raises while the script is sending for [r]: the Outlook
    automation surface is missing or raises, or the SMTP session raises once
    the message has been put together. *)
Inductive transport_failure (w : World) (cfg : Config) (r : record) (html_body : string)
  : Prop :=
| outlook_unavailable :
    uses_outlook cfg = true →
    win32com_installed w = false →
    transport_failure w cfg r html_body
| outlook_raises e :
    uses_outlook cfg = true →
    win32com_installed w = true →
    result (outlook_session w cfg r html_body) = Raise e →
    transport_failure w cfg r html_body
| smtp_raises msg e :
    uses_outlook cfg = false →
    result (smtp_embed_banner w (smtp_headers cfg r html_body)) = Ret msg →
    result (smtp_session w cfg r msg) = Raise e →
    transport_failure w cfg r html_body.

(** ** Vocabulary for traces *)

(** The events of a trace in which the script talks to a mail transport. *)
Definition transport_events (t : list event) : list event :=
  List.filter is_transport_event t.

Definition is_outlook_event (ev : event) : bool :=
  match ev with OutlookDispatch | OutlookSend _ => true | _ => false end.

Definition is_smtp_event (ev : event) : bool :=
  match ev with
  | SmtpConnect _ _ | SmtpStartTls | SmtpLogin _ _ | SmtpSendmail _ _ _ => true
  | _ => false
  end.

(** The addresses in the [To] field of the messages handed to a transport. *)
Definition addressees (t : list event) : list string :=
  omap (λ ev, match ev with
              | OutlookSend m => Some (mi_To m)
              | SmtpSendmail _ _ m => Some (msg_To m)
              | _ => None
              end) t.

(** The result files written: path and rows. *)
Definition csv_writes (t : list event) : list (string * list Outcome) :=
  omap (λ ev, match ev with CsvWrite p rows => Some (p, rows) | _ => None end) t.

(** The log lines of a trace. *)
Definition log_lines (t : list event) : list (level * string) :=
  omap (λ ev, match ev with Log l s => Some (l, s) | _ => None end) t.

(** What one SMTP session does when nothing fails, for the message [msg]. *)
Definition smtp_script (cfg : Config) (r : record) (msg : MimeMessage) : list event :=
  ([SmtpConnect (SMTP_HOST cfg) (SMTP_PORT cfg)]
   ++ (if SMTP_USE_TLS cfg then [SmtpStartTls] else [])
   ++ (if truthy (SMTP_USER cfg) && truthy (SMTP_PASSWORD cfg)
       then [SmtpLogin (SMTP_USER cfg) (SMTP_PASSWORD cfg)] else [])
   ++ [SmtpSendmail (SMTP_FROM cfg)
         (to_email r :: if truthy (CC_EMAIL cfg) then [CC_EMAIL cfg] else [])
         msg])%list.

(** The mail item [send_via_outlook] hands to Outlook. *)
Definition outlook_item (w : World) (cfg : Config) (r : record) (html_body : string)
  : MailItem :=
  {| mi_To := to_email r;
     mi_CC := if truthy (CC_EMAIL cfg) then Some (CC_EMAIL cfg) else None;
     mi_Subject :=
       "Welcome to ORBIT Power BI - Your Guide to Getting Started - "
       ++ "[" ++ ritm r ++ "][" ++ aide_id r ++ "][" ++ aide_name r ++ "]";
     mi_Attachments := [(BANNER_PATH w, "orbit_banner")];
     mi_HTMLBody := html_body |}.

(** The automation calls of one [send_via_outlook], in the order in which
    the script makes them, each with what the world makes of it. *)
Definition outlook_calls (w : World) (cfg : Config) (r : record) : list (option exn) :=
  ([ol_dispatch (outlook w r); ol_create_item (outlook w r); ol_set_to (outlook w r)]
   ++ (if truthy (CC_EMAIL cfg) then [ol_set_cc (outlook w r)] else [])
   ++ [ol_set_subject (outlook w r); attachments_add w r; ol_set_property (outlook w r);
       ol_set_body (outlook w r); ol_send (outlook w r)])%list.

(** The exception of the first call that raises, if one does. *)
Definition first_fault (calls : list (option exn)) : option exn :=
  first_some (λ call, call) calls.

(** A text with no whitespace at either end. *)
Definition is_trimmed (s : string) : Prop := strip s = s.

(** The file yields a record. *)
Definition yields_record (cfg : Config) (d : Document) : Prop :=
  ∃ r, result (parse_xlsx cfg d) = Ret (Some r).

(** Reading the banner stops the run with the exception [e]: the SMTP
    transport is selected, some file of the listing yields a record, and
    opening the banner raises [e], which is not a [FileNotFoundError]. *)
Definition banner_stops_run (w : World) (cfg : Config) (docs : list Document) (e : exn)
  : Prop :=
  uses_outlook cfg = false ∧ Exists (yields_record cfg) docs
  ∧ open_banner w = Raise e ∧ isinstance e FileNotFoundError = false.

(** The trace of the loop is the traces of its passes, one after the other,
    up to the first pass that raises. *)
Fixpoint passes (w : World) (cfg : Config) (html : string) (docs : list Document)
  : list event :=
  match docs with
  | [] => []
  | d :: docs' =>
      (trace (file_outcome w cfg html d)
       ++ match result (file_outcome w cfg html d) with
          | Ret _ => passes w cfg html docs'
          | Raise _ => []
          end)%list
  end.

(** The inline image [send_via_smtp] makes of the banner bytes. *)
Definition banner_image (data : list byte) : MimeImage :=
  {| img_data := data; img_subtype := "jpeg"; img_content_id := "<orbit_banner>";
     img_disposition := "inline"; img_filename := "orbit_banner.jpeg" |}.

(** A hand-off to the SMTP server whose envelope and headers agree with the
    configuration and the record. *)
Definition well_addressed (cfg : Config) (r : record) (html_body : string) (ev : event)
  : Prop :=
  match ev with
  | SmtpSendmail from_addr recipients m =>
      from_addr = SMTP_FROM cfg
      ∧ msg_From m = SMTP_FROM cfg
      ∧ msg_To m = to_email r
      ∧ msg_Cc m = (if truthy (CC_EMAIL cfg) then Some (CC_EMAIL cfg) else None)
      ∧ recipients = msg_To m :: option_list (msg_Cc m)
      ∧ msg_html m = html_body
  | _ => True
  end.

(** A row that can matter to [parse_xlsx]: its key is one of the four. *)
Definition relevant (r : row) : Prop := row_key r ∈ required_keys.

(** The sheet reduced to the relevant rows and to their first two columns. *)
Definition essential (df : list row) : list row :=
  (λ r, Row (iloc0 r) (take 1 (iloc_rest r))) <$> filter relevant df.

(** The addresses of the rows with the given property, in order. *)
Definition row_addresses (P : Outcome → Prop) `{∀ o, Decision (P o)}
    (rows : list Outcome) : list string :=
  o_to_email <$> filter P rows.

(** ** The extractor as the specification words it

    The first non-empty cell of a row is the key and the cell after it the
    value; both are trimmed, blank cells count as empty, a value that is the
    placeholder [nan] in any letter case is dropped, and a later row wins. *)

Fixpoint spec_key_value (cells : list cell) : string * string :=
  match cells with
  | [] => ("", "")
  | c :: rest =>
      if truthy (trimmed c)
      then (trimmed c, match rest with c' :: _ => trimmed c' | [] => "" end)
      else spec_key_value rest
  end.

Definition spec_store_row (data : gmap string string) (r : row) : gmap string string :=
  let '(k, v) := spec_key_value (iloc0 r :: iloc_rest r) in
  if truthy k && truthy v && negb (String.eqb (lower v) "nan")
  then <[k := v]> data else data.

Definition spec_build_data (df : frame) : gmap string string :=
  foldl spec_store_row ∅ df.

(** ** Sample inputs *)

Module Sample.

Definition kv (k v : string) : row := Row (Val k) [Val v].

Definition cfg_smtp : Config :=
  {| SEND_METHOD := "SMTP"; SMTP_HOST := "smtp.office365.com"; SMTP_PORT := 587;
     SMTP_USE_TLS := true; SMTP_USER := "bot@corp.com"; SMTP_PASSWORD := "secret";
     SMTP_FROM := "bot@corp.com"; EMAIL_DOMAIN := "corp.com"; CC_EMAIL := "" |}.

Definition cfg_method (method : string) : Config :=
  {| SEND_METHOD := method; SMTP_HOST := SMTP_HOST cfg_smtp;
     SMTP_PORT := SMTP_PORT cfg_smtp; SMTP_USE_TLS := SMTP_USE_TLS cfg_smtp;
     SMTP_USER := SMTP_USER cfg_smtp; SMTP_PASSWORD := SMTP_PASSWORD cfg_smtp;
     SMTP_FROM := SMTP_FROM cfg_smtp; EMAIL_DOMAIN := EMAIL_DOMAIN cfg_smtp;
     CC_EMAIL := CC_EMAIL cfg_smtp |}.

Definition cfg_outlook : Config := cfg_method "OUTLOOK".

Definition healthy_outlook : OutlookScript :=
  {| ol_dispatch := None; ol_create_item := None; ol_set_to := None; ol_set_cc := None;
     ol_set_subject := None; ol_attach := None; ol_set_property := None;
     ol_set_body := None; ol_send := None |}.

Definition healthy_smtp : SmtpScript :=
  {| smtp_connect := None; smtp_starttls := None; smtp_login := None;
     smtp_sendmail := None; smtp_quit := None |}.

Definition unreachable_smtp : SmtpScript :=
  {| smtp_connect := Some (Exn OSError "[Errno 111] Connection refused");
     smtp_starttls := None; smtp_login := None;
     smtp_sendmail := None; smtp_quit := None |}.

(** A world with the given banner state in which both transports work. *)
Definition world (banner : res (list byte)) : World :=
  {| INPUT_DIR := "input_files"; BANNER_PATH := "assets/orbit_banner.jpeg";
     html_template := λ cid, "<html><img src='cid:" ++ cid ++ "'></html>";
     csv_path := "logs/results.csv";
     open_csv := None;
     open_banner := banner;
     win32com_installed := true;
     outlook := λ _, healthy_outlook;
     smtp := λ _, healthy_smtp |}.

Definition jpeg : list byte := [xff; xd8; xff; xe0].

Definition with_banner : World := world (Ret jpeg).

Definition no_banner : World :=
  world (Raise (Exn FileNotFoundError "[Errno 2] No such file or directory")).

Definition locked_banner : World :=
  world (Raise (Exn PermissionError "[Errno 13] Permission denied")).

(** The SMTP host is unreachable for the file [bad] only. *)
Definition flaky_smtp (bad : string) : World :=
  {| INPUT_DIR := INPUT_DIR with_banner; BANNER_PATH := BANNER_PATH with_banner;
     html_template := html_template with_banner; csv_path := csv_path with_banner;
     open_csv := None;
     open_banner := open_banner with_banner;
     win32com_installed := true;
     outlook := λ _, healthy_outlook;
     smtp := λ r, if String.eqb (file r) bad then unreachable_smtp else healthy_smtp |}.

Definition sheet (owner : string) : frame :=
  [kv "RITM" "REQ1"; kv "AIDE_ID" "A100"; kv "AIDE NAME" "Finance App";
   kv "Application Owner" owner].

Definition doc_nkelly : Document :=
  {| doc_name := "finance.xlsx"; read_excel := Ret (sheet "nkelly13") |}.

Definition doc_jdoe : Document :=
  {| doc_name := "hr.xlsx"; read_excel := Ret (sheet "jdoe@other.com") |}.

Definition sheet_no_aide_id : frame :=
  [kv "RITM" "REQ1"; kv "AIDE NAME" "Finance App"; kv "Application Owner" "nkelly13"].

Definition sheet_no_ritm : frame :=
  [kv "AIDE_ID" "A100"; kv "AIDE NAME" "Finance App"; kv "Application Owner" "nkelly13"].

Definition doc_no_aide_id : Document :=
  {| doc_name := "broken.xlsx"; read_excel := Ret sheet_no_aide_id |}.

Definition doc_no_ritm : Document :=
  {| doc_name := "broken.xlsx"; read_excel := Ret sheet_no_ritm |}.

Definition doc_corrupt : Document :=
  {| doc_name := "broken.xlsx";
     read_excel := Raise (Exn ValueError "File is not a zip file") |}.

Definition rec_finance : record :=
  {| file := "finance.xlsx"; ritm := "REQ1"; aide_id := "A100";
     aide_name := "Finance App"; to_email := "nkelly13@corp.com" |}.

(** Keys in the second column, values in the third. *)
Definition shifted_sheet : frame :=
  [Row (Val "RITM") [Val "REQ1"; NA]; Row NA [Val "AIDE_ID"; Val "A100"]].

End Sample.


(** ** Further sample inputs *)

Module Scenario.

(** The server accepts the message and then answers QUIT with an error. *)
Definition rude_smtp : SmtpScript :=
  {| smtp_connect := None; smtp_starttls := None; smtp_login := None;
     smtp_sendmail := None;
     smtp_quit := Some (Exn SMTPException "(421, b'Service not available')") |}.

Definition rude_world : World :=
  {| INPUT_DIR := INPUT_DIR Sample.with_banner;
     BANNER_PATH := BANNER_PATH Sample.with_banner;
     html_template := html_template Sample.with_banner;
     csv_path := csv_path Sample.with_banner;
     open_csv := None;
     open_banner := open_banner Sample.with_banner;
     win32com_installed := true;
     outlook := λ _, Sample.healthy_outlook;
     smtp := λ _, rude_smtp |}.

(** No pywin32 on the machine. *)
Definition no_win32com : World :=
  {| INPUT_DIR := INPUT_DIR Sample.with_banner;
     BANNER_PATH := BANNER_PATH Sample.with_banner;
     html_template := html_template Sample.with_banner;
     csv_path := csv_path Sample.with_banner;
     open_csv := None;
     open_banner := open_banner Sample.with_banner;
     win32com_installed := false;
     outlook := λ _, Sample.healthy_outlook;
     smtp := λ _, Sample.healthy_smtp |}.

(** No pywin32, and the results file cannot be created. *)
Definition no_results_file : World :=
  {| INPUT_DIR := INPUT_DIR Sample.with_banner;
     BANNER_PATH := BANNER_PATH Sample.with_banner;
     html_template := html_template Sample.with_banner;
     csv_path := csv_path Sample.with_banner;
     open_csv := Some (Exn FileNotFoundError "[Errno 2] No such file or directory");
     open_banner := open_banner Sample.with_banner;
     win32com_installed := false;
     outlook := λ _, Sample.healthy_outlook;
     smtp := λ _, Sample.healthy_smtp |}.

Definition doc (name : string) (df : frame) : Document :=
  {| doc_name := name; read_excel := Ret df |}.

End Scenario.

(** * Properties *)

(** ** The effect monad *)

Section monad_facts.
Context {A B : Type}.
Implicit Types (m : M A) (f : A → M B).

Lemma bind_Ret t a f :
  ((t, Ret a) : M A) ≫= f = ((t ++ trace (f a))%list, result (f a)).
Proof. reflexivity. Qed.

Lemma bind_Raise t e f : ((t, Raise e) : M A) ≫= f = (t, Raise e).
Proof. reflexivity. Qed.

Lemma result_bind_Ret m f b :
  result (m ≫= f) = Ret b → ∃ a, result m = Ret a ∧ result (f a) = Ret b.
Proof.
  destruct m as [t [a|e]]; [rewrite bind_Ret | rewrite bind_Raise]; simpl.
  - intros H. by exists a.
  - discriminate.
Qed.

Lemma result_bind m f a :
  result m = Ret a → result (m ≫= f) = result (f a).
Proof.
  destruct m as [t [a'|e]]; intros H; cbn in H; [|discriminate].
  injection H as ->. by rewrite bind_Ret.
Qed.

Lemma trace_bind m f a :
  result m = Ret a → trace (m ≫= f) = (trace m ++ trace (f a))%list.
Proof.
  destruct m as [t [a'|e]]; intros H; cbn in H; [|discriminate].
  injection H as ->. by rewrite bind_Ret.
Qed.

Lemma result_bind_Raise m f e :
  result m = Raise e → m ≫= f = (trace m, Raise e).
Proof.
  destruct m as [t [a'|e']]; intros H; cbn in H; [discriminate|].
  by injection H as ->.
Qed.
End monad_facts.

Lemma M_eta {A} (m : M A) : m = (trace m, result m).
Proof. by destruct m. Qed.

(** ** Python [str] helpers *)

Lemma truthy_true s : truthy s = true ↔ s ≠ "".
Proof. destruct s; simpl; split; congruence. Qed.

Lemma truthy_false s : truthy s = false ↔ s = "".
Proof. destruct s; simpl; split; congruence. Qed.

Lemma string_app_nil_r s : s ++ "" = s.
Proof. induction s as [|a s IH]; [done|]. exact (f_equal (String a) IH). Qed.

Lemma string_app_assoc s t u : (s ++ t) ++ u = s ++ t ++ u.
Proof. induction s as [|a s IH]; [done|]. exact (f_equal (String a) IH). Qed.

Lemma string_app_nil_l s : "" ++ s = s.
Proof. done. Qed.

Lemma string_app_cons a s t : String a s ++ t = String a (s ++ t).
Proof. done. Qed.

Lemma string_app_length s t : String.length (s ++ t) = String.length s + String.length t.
Proof.
  induction s as [|a s IH]; [done|].
  rewrite string_app_cons. cbn [String.length]. by rewrite IH.
Qed.

Lemma string_app_nil s t : s ++ t = "" → s = "" ∧ t = "".
Proof. by destruct s. Qed.

Lemma string_app_inv_tail s t u : s ++ u = t ++ u → s = t.
Proof.
  revert t. induction s as [|a s IH]; intros [|b t] H.
  - done.
  - apply (f_equal String.length) in H.
    rewrite !string_app_length in H. cbn in H. lia.
  - apply (f_equal String.length) in H.
    rewrite !string_app_length in H. cbn in H. lia.
  - rewrite !string_app_cons in H. injection H as -> H. f_equal. by apply IH.
Qed.

(** Two ways of cutting one text: one of the first parts starts the other. *)
Lemma string_app_eq_app s1 s2 t1 t2 :
  s1 ++ s2 = t1 ++ t2 →
  ∃ u, (t1 = s1 ++ u ∧ s2 = u ++ t2) ∨ (s1 = t1 ++ u ∧ t2 = u ++ s2).
Proof.
  revert t1. induction s1 as [|a s1 IH]; intros t1 H.
  - exists t1. by left.
  - destruct t1 as [|b t1].
    + exists (String a s1). by right.
    + rewrite !string_app_cons in H. injection H as -> H.
      destruct (IH _ H) as (u & [[-> ->]|[-> ->]]); exists u; [by left|by right].
Qed.

Lemma strip_prefix_Some p s t : strip_prefix p s = Some t ↔ s = p ++ t.
Proof.
  revert s. induction p as [|a p IH]; intros s; cbn.
  - rewrite string_app_nil_l. split; congruence.
  - destruct s as [|b s]; [done|]. rewrite string_app_cons.
    destruct (Ascii.eqb_spec a b) as [->|Hne].
    + rewrite IH. split; congruence.
    + split; [done|]. congruence.
Qed.

Lemma strip_suffix_eq p s :
  strip_suffix p s
  = if String.eqb s p then Some ""
    else match s with
         | "" => None
         | String a s' => String a <$> strip_suffix p s'
         end.
Proof. by destruct s. Qed.

Lemma strip_suffix_Some p s t : strip_suffix p s = Some t ↔ s = t ++ p.
Proof.
  revert t. induction s as [|a s IH]; intros t; rewrite strip_suffix_eq.
  - destruct (String.eqb_spec "" p) as [<-|Hne].
    + split; [by intros [= <-]|]. intros H. symmetry in H.
      by apply string_app_nil in H as [-> _].
    + split; [done|]. intros H. symmetry in H.
      apply string_app_nil in H as [_ ->]. done.
  - destruct (String.eqb_spec (String a s) p) as [<-|Hne].
    + split; [by intros [= <-]|]. intros H. f_equal.
      symmetry. by apply (string_app_inv_tail _ _ (String a s)).
    + destruct (strip_suffix p s) as [t'|] eqn:Ht'; cbn.
      * destruct (IH t') as [Hs _]. specialize (Hs eq_refl). subst s.
        split; [by intros [= <-]|].
        destruct t as [|b t]; [intros H; by rewrite string_app_nil_l in H|].
        rewrite string_app_cons. intros [= <- H]. f_equal. f_equal.
        symmetry. by apply (string_app_inv_tail _ _ p).
      * split; [done|].
        destruct t as [|b t]; [intros H; by rewrite string_app_nil_l in H|].
        rewrite string_app_cons. intros [= <- H].
        by apply IH in H.
Qed.

Lemma first_some_None {A B} (f : A → option B) table :
  first_some f table = None ↔ Forall (λ x, f x = None) table.
Proof.
  unfold first_some. induction table as [|x table IH]; cbn.
  - split; [constructor|done].
  - destruct (f x) eqn:Hx; cbn.
    + split; [done|]. intros [? _]%Forall_cons. congruence.
    + rewrite IH. split; [by constructor|]. by intros [_ ?]%Forall_cons.
Qed.

Lemma first_some_Some {A B} (f : A → option B) table y :
  first_some f table = Some y → ∃ x, x ∈ table ∧ f x = Some y.
Proof.
  unfold first_some. induction table as [|x table IH]; cbn; [done|].
  destruct (f x) eqn:Hx; cbn.
  - intros [= ->]. exists x. split; [left|done].
  - intros (x' & ? & ?)%IH. exists x'. split; [by right|done].
Qed.

Lemma first_some_unique {A B} (f : A → option B) table x y :
  x ∈ table → f x = Some y →
  (∀ x' y', x' ∈ table → f x' = Some y' → y' = y) →
  first_some f table = Some y.
Proof.
  intros Hx Hf Huniq. destruct (first_some f table) as [y'|] eqn:H.
  - apply first_some_Some in H as (x' & Hx' & Hf'). f_equal. eauto.
  - rewrite first_some_None, Forall_forall in H. rewrite (H x Hx) in Hf. done.
Qed.

(** ** The whitespace table *)

(** No whitespace character is empty, and none starts or ends another. *)
Lemma whitespace_nonempty w : w ∈ whitespace → w ≠ "".
Proof.
  intros Hw ->. revert Hw. apply (bool_decide_unpack _). vm_compute. reflexivity.
Qed.

Lemma whitespace_prefix_free w1 w2 t1 t2 :
  w1 ∈ whitespace → w2 ∈ whitespace → w1 ++ t1 = w2 ++ t2 → w1 = w2 ∧ t1 = t2.
Proof.
  intros H1 H2 H.
  assert (Forall (λ w, Forall (λ w', ∀ u, strip_prefix w w' = Some u → u = "")
                         whitespace) whitespace) as Htable.
  { assert (forallb (λ w, forallb (λ w', match strip_prefix w w' with
                                         | Some (String _ _) => false
                                         | _ => true
                                         end) whitespace) whitespace = true) as Hb
      by (vm_compute; reflexivity).
    rewrite forallb_forall in Hb. apply Forall_forall. intros w Hw%list_elem_of_In.
    specialize (Hb w Hw). rewrite forallb_forall in Hb.
    apply Forall_forall. intros w' Hw'%list_elem_of_In u Hu.
    specialize (Hb w' Hw'). rewrite Hu in Hb. by destruct u. }
  rewrite Forall_forall in Htable.
  assert (w1 = w2) as ->.
  { destruct (string_app_eq_app _ _ _ _ H) as (u & [[Hu _]|[Hu _]]).
    - pose proof (Htable w1 H1) as Hw. rewrite Forall_forall in Hw.
      assert (u = "") as -> by (apply (Hw w2 H2); by apply strip_prefix_Some).
      by rewrite string_app_nil_r in Hu.
    - pose proof (Htable w2 H2) as Hw. rewrite Forall_forall in Hw.
      assert (u = "") as -> by (apply (Hw w1 H1); by apply strip_prefix_Some).
      by rewrite string_app_nil_r in Hu. }
  split; [done|]. by apply (inj (String.append w2)).
Qed.

Lemma whitespace_suffix_free w1 w2 t1 t2 :
  w1 ∈ whitespace → w2 ∈ whitespace → t1 ++ w1 = t2 ++ w2 → w1 = w2 ∧ t1 = t2.
Proof.
  intros H1 H2 H.
  assert (Forall (λ w, Forall (λ w', ∀ u, strip_suffix w w' = Some u → u = "")
                         whitespace) whitespace) as Htable.
  { assert (forallb (λ w, forallb (λ w', match strip_suffix w w' with
                                         | Some (String _ _) => false
                                         | _ => true
                                         end) whitespace) whitespace = true) as Hb
      by (vm_compute; reflexivity).
    rewrite forallb_forall in Hb. apply Forall_forall. intros w Hw%list_elem_of_In.
    specialize (Hb w Hw). rewrite forallb_forall in Hb.
    apply Forall_forall. intros w' Hw'%list_elem_of_In u Hu.
    specialize (Hb w' Hw'). rewrite Hu in Hb. by destruct u. }
  rewrite Forall_forall in Htable.
  assert (w1 = w2) as ->.
  { destruct (string_app_eq_app _ _ _ _ H) as (u & [[Hu Hv]|[Hu Hv]]).
    - (* t2 = t1 ++ u, w1 = u ++ w2 *)
      pose proof (Htable w2 H2) as Hw. rewrite Forall_forall in Hw.
      assert (u = "") as -> by (apply (Hw w1 H1); by apply strip_suffix_Some).
      done.
    - pose proof (Htable w1 H1) as Hw. rewrite Forall_forall in Hw.
      assert (u = "") as -> by (apply (Hw w2 H2); by apply strip_suffix_Some).
      done. }
  split; [done|]. by apply (string_app_inv_tail _ _ w2).
Qed.

(** A byte that follows the first byte of a whitespace character starts no
    whitespace character. *)
Lemma whitespace_inner_byte a p c q w t :
  String a (p ++ String c q) ∈ whitespace → w ∈ whitespace → w ≠ String c t.
Proof.
  intros Hw1 Hw2 ->.
  assert (forallb (λ w, forallb (λ w',
            match w, w' with
            | String _ rest, String c' _ =>
                negb (existsb (Ascii.eqb c') (String.list_ascii_of_string rest))
            | _, _ => true
            end) whitespace) whitespace = true) as Hb by (vm_compute; reflexivity).
  rewrite forallb_forall in Hb. apply list_elem_of_In in Hw1, Hw2.
  specialize (Hb _ Hw1). rewrite forallb_forall in Hb. specialize (Hb _ Hw2).
  cbn beta iota in Hb. apply negb_true_iff in Hb.
  assert (existsb (Ascii.eqb c) (String.list_ascii_of_string (p ++ String c q)) = true) as He.
  { clear. induction p as [|b p IH].
    - rewrite string_app_nil_l. cbn. by rewrite Ascii.eqb_refl.
    - rewrite string_app_cons. cbn. rewrite IH. apply orb_true_r. }
  congruence.
Qed.

(** ** One step *)

Lemma skip_space_Some s t :
  skip_space s = Some t ↔ ∃ w, w ∈ whitespace ∧ s = w ++ t.
Proof.
  unfold skip_space. split.
  - intros (w & Hw & H%strip_prefix_Some)%first_some_Some. eauto.
  - intros (w & Hw & ->). apply (first_some_unique _ _ w); [done|by apply strip_prefix_Some|].
    intros w' t' Hw' H%strip_prefix_Some.
    by destruct (whitespace_prefix_free _ _ _ _ Hw Hw' H).
Qed.

Lemma skip_space_None s :
  skip_space s = None ↔ ∀ w, w ∈ whitespace → ¬ starts_with w s.
Proof.
  unfold skip_space. rewrite first_some_None, Forall_forall.
  split; intros H w Hw.
  - intros [t Ht%strip_prefix_Some]. by rewrite (H w Hw) in Ht.
  - destruct (strip_prefix w s) as [t|] eqn:Ht; [|done].
    destruct (H w Hw). exists t. by apply strip_prefix_Some.
Qed.

Lemma skip_space_end_Some s t :
  skip_space_end s = Some t ↔ ∃ w, w ∈ whitespace ∧ s = t ++ w.
Proof.
  unfold skip_space_end. split.
  - intros (w & Hw & H%strip_suffix_Some)%first_some_Some. eauto.
  - intros (w & Hw & ->). apply (first_some_unique _ _ w); [done|by apply strip_suffix_Some|].
    intros w' t' Hw' H%strip_suffix_Some.
    by destruct (whitespace_suffix_free _ _ _ _ Hw Hw' H).
Qed.

Lemma skip_space_end_None s :
  skip_space_end s = None ↔ ∀ w, w ∈ whitespace → ¬ ends_with w s.
Proof.
  unfold skip_space_end. rewrite first_some_None, Forall_forall.
  split; intros H w Hw.
  - intros [t Ht%strip_suffix_Some]. by rewrite (H w Hw) in Ht.
  - destruct (strip_suffix w s) as [t|] eqn:Ht; [|done].
    destruct (H w Hw). exists t. by apply strip_suffix_Some.
Qed.

Lemma skip_space_shorter s t : skip_space s = Some t → String.length t < String.length s.
Proof.
  intros (w & Hw & ->)%skip_space_Some. rewrite string_app_length.
  apply whitespace_nonempty in Hw. destruct w; [done|]. cbn. lia.
Qed.

Lemma skip_space_end_shorter s t :
  skip_space_end s = Some t → String.length t < String.length s.
Proof.
  intros (w & Hw & ->)%skip_space_end_Some. rewrite string_app_length.
  apply whitespace_nonempty in Hw. destruct w; [done|]. cbn. lia.
Qed.

(** ** Repeating the step *)

Section skip_all.
Variable skip : string → option string.
Hypothesis skip_shorter : ∀ s t, skip s = Some t → String.length t < String.length s.

(** The bound on the number of steps is never reached. *)
Lemma skip_all_enough n m s :
  (String.length s ≤ n)%nat → (String.length s ≤ m)%nat →
  skip_all skip n s = skip_all skip m s.
Proof.
  revert m s. induction n as [|n IH]; intros m s Hn Hm.
  - destruct s; [|cbn in Hn; lia]. destruct m; cbn; [done|].
    destruct (skip "") as [t|] eqn:Ht; [|done]. apply skip_shorter in Ht. cbn in Ht. lia.
  - destruct m as [|m]; cbn.
    + destruct s; [|cbn in Hm; lia].
      destruct (skip "") as [t|] eqn:Ht; [|done]. apply skip_shorter in Ht. cbn in Ht. lia.
    + destruct (skip s) as [t|] eqn:Ht; [|done]. apply skip_shorter in Ht.
      apply IH; lia.
Qed.

Lemma skip_all_step s :
  skip_all skip (String.length s) s
  = match skip s with
    | Some t => skip_all skip (String.length t) t
    | None => s
    end.
Proof.
  destruct (skip s) as [t|] eqn:Ht.
  - pose proof (skip_shorter _ _ Ht).
    rewrite (skip_all_enough _ (S (String.length s))) by lia. cbn. rewrite Ht.
    apply skip_all_enough; lia.
  - destruct (String.length s); cbn; by rewrite ?Ht.
Qed.

Lemma skip_all_ind (P : string → string → Prop) :
  (∀ s, skip s = None → P s s) →
  (∀ s t r, skip s = Some t → P t r → P s r) →
  ∀ s, P s (skip_all skip (String.length s) s).
Proof.
  intros Hstop Hstep s.
  remember (String.length s) as n eqn:Hn.
  assert (String.length s ≤ n)%nat as Hle by lia. clear Hn.
  revert s Hle. induction n as [|n IH]; intros s Hle; cbn [skip_all].
  - destruct s; [|cbn in Hle; lia].
    destruct (skip "") as [t|] eqn:Ht; [|by apply Hstop].
    apply skip_shorter in Ht. cbn in Ht. lia.
  - destruct (skip s) as [t|] eqn:Ht; [|by apply Hstop].
    apply (Hstep s t); [done|]. apply IH. apply skip_shorter in Ht. lia.
Qed.
End skip_all.

(** ** [lstrip], [rstrip] and [strip] *)

Lemma lstrip_step s :
  lstrip s = match skip_space s with Some t => lstrip t | None => s end.
Proof. apply skip_all_step, skip_space_shorter. Qed.

Lemma rstrip_step s :
  rstrip s = match skip_space_end s with Some t => rstrip t | None => s end.
Proof. apply skip_all_step, skip_space_end_shorter. Qed.

Lemma join_cons w ws : join (w :: ws) = w ++ join ws.
Proof. done. Qed.

Lemma join_app ws1 ws2 : join (ws1 ++ ws2) = join ws1 ++ join ws2.
Proof.
  induction ws1 as [|w ws1 IH]; [done|].
  rewrite <- app_comm_cons, !join_cons, IH. by rewrite string_app_assoc.
Qed.

Lemma blank_nil : blank "".
Proof. by exists []. Qed.

Lemma blank_cons w s : w ∈ whitespace → blank s → blank (w ++ s).
Proof. intros Hw (ws & Hws & ->). exists (w :: ws). split; [by constructor|done]. Qed.

Lemma blank_snoc s w : blank s → w ∈ whitespace → blank (s ++ w).
Proof.
  intros (ws & Hws & ->) Hw. exists (ws ++ [w])%list. split.
  - apply Forall_app. split; [done|]. by constructor.
  - by rewrite join_app, join_cons, string_app_nil_r.
Qed.

Lemma blank_app s t : blank s → blank t → blank (s ++ t).
Proof.
  intros (ws1 & H1 & ->) (ws2 & H2 & ->). exists (ws1 ++ ws2)%list.
  split; [by apply Forall_app|by rewrite join_app].
Qed.

(** [lstrip] removes a blank prefix and leaves a text that starts with no
    whitespace character. *)
Lemma lstrip_spec s :
  ∃ l, blank l ∧ s = l ++ lstrip s ∧ skip_space (lstrip s) = None.
Proof.
  unfold lstrip. apply (skip_all_ind skip_space skip_space_shorter
    (λ s r, ∃ l, blank l ∧ s = l ++ r ∧ skip_space r = None)).
  - intros s' H. exists "". split; [apply blank_nil|done].
  - intros s' t r (w & Hw & ->)%skip_space_Some (l & Hl & -> & Hr).
    exists (w ++ l). split; [by apply blank_cons|]. by rewrite string_app_assoc.
Qed.

Lemma rstrip_spec s :
  ∃ r, blank r ∧ s = rstrip s ++ r ∧ skip_space_end (rstrip s) = None.
Proof.
  unfold rstrip. apply (skip_all_ind skip_space_end skip_space_end_shorter
    (λ s t, ∃ r, blank r ∧ s = t ++ r ∧ skip_space_end t = None)).
  - intros s' H. exists "". split; [apply blank_nil|]. by rewrite string_app_nil_r.
  - intros s' t x (w & Hw & ->)%skip_space_end_Some (r & Hr & -> & Hx).
    exists (r ++ w). split; [by apply blank_snoc|]. by rewrite string_app_assoc.
Qed.

Lemma lstrip_blank_app l s : blank l → lstrip (l ++ s) = lstrip s.
Proof.
  intros (ws & Hws & ->). induction Hws as [|w ws Hw _ IH]; [done|].
  rewrite join_cons, string_app_assoc, lstrip_step.
  assert (skip_space (w ++ join ws ++ s) = Some (join ws ++ s)) as ->; [|done].
  apply skip_space_Some. eauto.
Qed.

Lemma rstrip_app_blank s r : blank r → rstrip (s ++ r) = rstrip s.
Proof.
  intros (ws & Hws & ->). induction ws as [|w ws IH] using rev_ind.
  - by rewrite string_app_nil_r.
  - apply Forall_app in Hws as [Hws Hw]. rewrite Forall_singleton in Hw.
    rewrite join_app, join_cons, string_app_nil_r.
    rewrite <- string_app_assoc, rstrip_step.
    assert (skip_space_end ((s ++ join ws) ++ w) = Some (s ++ join ws)) as ->; [|by apply IH].
    apply skip_space_end_Some. eauto.
Qed.

Lemma lstrip_id s : skip_space s = None → lstrip s = s.
Proof. intros H. by rewrite lstrip_step, H. Qed.

Lemma rstrip_id s : skip_space_end s = None → rstrip s = s.
Proof. intros H. by rewrite rstrip_step, H. Qed.

(** A text that starts with no whitespace character still does so when
    blanks are put after it, unless it is empty. *)
Lemma skip_space_app_blank t r :
  t ≠ "" → skip_space t = None → blank r → skip_space (t ++ r) = None.
Proof.
  intros Ht Hnone (ws & Hws & ->).
  destruct (skip_space (t ++ join ws)) as [u|] eqn:Hu; [|done]. exfalso.
  apply skip_space_Some in Hu as (w & Hw & Hu).
  rewrite skip_space_None in Hnone.
  destruct (string_app_eq_app _ _ _ _ Hu) as (q & [[-> Hq]|[-> _]]).
  - (* the whitespace character reaches into the blanks *)
    destruct t as [|a p]; [done|]. destruct q as [|c q].
    { apply (Hnone _ Hw). exists "". by rewrite !string_app_nil_r. }
    destruct Hws as [|w2 ws Hw2 _]; [done|]. rewrite join_cons in Hq.
    pose proof (whitespace_nonempty _ Hw2) as Hne.
    destruct w2 as [|c2 w2]; [done|].
    rewrite !string_app_cons in Hq. injection Hq as <- _.
    rewrite string_app_cons in Hw.
    by apply (whitespace_inner_byte _ _ _ _ _ w2 Hw Hw2).
  - apply (Hnone _ Hw). by exists q.
Qed.

(** [strip] computes the one text that [trims_to] describes. *)
Lemma strip_trims s t : trims_to s t ↔ strip s = t.
Proof.
  split.
  - intros (l & r & -> & Hl & Hr & Hstart%skip_space_None & Hend%skip_space_end_None).
    unfold strip. rewrite (lstrip_blank_app _ _ Hl).
    destruct (decide (t = "")) as [->|Hne].
    + rewrite string_app_nil_l.
      rewrite <- (string_app_nil_r r), (lstrip_blank_app _ _ Hr).
      by rewrite lstrip_id, rstrip_id.
    + rewrite lstrip_id by (by apply skip_space_app_blank).
      rewrite (rstrip_app_blank _ _ Hr). by apply rstrip_id.
  - intros <-. unfold strip.
    destruct (lstrip_spec s) as (l & Hl & Hs & Hstart).
    destruct (rstrip_spec (lstrip s)) as (r & Hr & Hs' & Hend).
    exists l, r. split; [by rewrite <- Hs'|]. split; [done|]. split; [done|].
    split; [|by apply skip_space_end_None].
    intros w Hw [u Hu]. rewrite skip_space_None in Hstart. apply (Hstart w Hw).
    exists (u ++ r). by rewrite Hs', Hu, string_app_assoc.
Qed.

(** A text is its own trimmed form exactly when no whitespace character
    starts or ends it. *)
Lemma is_trimmed_spec s :
  is_trimmed s ↔ (∀ w, w ∈ whitespace → ¬ starts_with w s)
                 ∧ (∀ w, w ∈ whitespace → ¬ ends_with w s).
Proof.
  unfold is_trimmed. rewrite <- strip_trims. split.
  - intros (l & r & _ & _ & _ & ? & ?). done.
  - intros [? ?]. exists "", "". rewrite string_app_nil_r.
    repeat split; auto using blank_nil.
Qed.

Lemma strip_strip s : strip (strip s) = strip s.
Proof.
  apply strip_trims.
  pose proof (proj2 (strip_trims s (strip s)) eq_refl) as (l & r & _ & _ & _ & H1 & H2).
  exists "", "". rewrite string_app_nil_r. repeat split; auto using blank_nil.
Qed.

(** [contains_char c s] decides whether [c] occurs somewhere in [s]. *)
Lemma contains_char_spec c s :
  contains_char c s = true ↔ ∃ s1 s2, s = s1 ++ String c s2.
Proof.
  induction s as [|a t IH]; simpl.
  - split; [discriminate|]. intros ([|b s1] & s2 & H); discriminate.
  - destruct (Ascii.eqb_spec a c) as [->|Hne].
    + split; [|done]. intros _. by exists "", t.
    + rewrite IH. split.
      * intros (s1 & s2 & ->). by exists (String a s1), s2.
      * intros ([|b s1] & s2 & H); simpl in H; injection H as -> ->; [done|eauto].
  Qed.

(** ** [parse_xlsx] *)

Lemma parse_xlsx_unreadable cfg d e :
  read_excel d = Raise e →
  parse_xlsx cfg d =
    ([Log ERROR ("Cannot open " ++ doc_name d ++ ": " ++ exn_str e)], Ret None).
Proof. intros H. unfold parse_xlsx. rewrite H. reflexivity. Qed.

Lemma parse_xlsx_missing cfg d df :
  read_excel d = Ret df →
  all (required_values df) = false →
  parse_xlsx cfg d =
    ([Log WARNING ("[" ++ doc_name d ++ "] Missing fields — "
                   ++ "RITM='" ++ get (build_data df) "RITM"
                   ++ "' AIDE_ID='" ++ get (build_data df) "AIDE_ID"
                   ++ "' AIDE_NAME='" ++ get (build_data df) "AIDE NAME"
                   ++ "' Owner='" ++ get (build_data df) "Application Owner" ++ "'")],
     Ret None).
Proof.
  intros H Hall. unfold parse_xlsx. rewrite H.
  unfold required_values, required_keys in Hall. cbn [fmap list_fmap] in Hall.
  cbv [try_except mbind M_bind mret M_ret fst snd].
  rewrite Hall. reflexivity.
Qed.

Lemma parse_xlsx_record cfg d df :
  read_excel d = Ret df →
  all (required_values df) = true →
  parse_xlsx cfg d =
    ([], Ret (Some {| file := doc_name d;
                      ritm := get (build_data df) "RITM";
                      aide_id := get (build_data df) "AIDE_ID";
                      aide_name := get (build_data df) "AIDE NAME";
                      to_email :=
                        if contains_char "@" (get (build_data df) "Application Owner")
                        then get (build_data df) "Application Owner"
                        else get (build_data df) "Application Owner"
                             ++ "@" ++ EMAIL_DOMAIN cfg |})).
Proof.
  intros H Hall. unfold parse_xlsx. rewrite H.
  unfold required_values, required_keys in Hall. cbn [fmap list_fmap] in Hall.
  cbv [try_except mbind M_bind mret M_ret fst snd].
  rewrite Hall. reflexivity.
Qed.

(** [parse_xlsx] never lets an exception escape. *)
Lemma parse_xlsx_returns cfg d : ∃ o, result (parse_xlsx cfg d) = Ret o.
Proof.
  destruct (read_excel d) as [df|e] eqn:H.
  - destruct (all (required_values df)) eqn:Hall.
    + rewrite (parse_xlsx_record _ _ _ H Hall). eauto.
    + rewrite (parse_xlsx_missing _ _ _ H Hall). eauto.
  - rewrite (parse_xlsx_unreadable _ _ _ H). eauto.
Qed.

Lemma all_Forall xs : all xs = true ↔ Forall (λ s, s ≠ "") xs.
Proof.
  unfold all. rewrite forallb_forall, Forall_forall.
  split; intros H x Hx.
  - apply truthy_true, H. by apply list_elem_of_In.
  - apply truthy_true, H. by apply list_elem_of_In.
Qed.

(** ** The lookup built from the rows *)

Lemma build_data_snoc df r :
  build_data (df ++ [r])%list = store_row (build_data df) r.
Proof. unfold build_data. by rewrite foldl_app. Qed.

Lemma lower_empty s : lower s = "" ↔ s = "".
Proof. unfold lower. destruct s; simpl; split; congruence. Qed.

Lemma row_kept_true r :
  row_kept r = true ↔
  row_key r ≠ "" ∧ row_val r ≠ "" ∧ lower (row_val r) ≠ "nan".
Proof.
  unfold row_kept, in_tuple. simpl existsb.
  rewrite !andb_true_iff, negb_true_iff, !orb_false_iff, !truthy_true.
  rewrite !String.eqb_neq. rewrite lower_empty. tauto.
Qed.

(** A key is bound to the value of the last kept row that carries it. *)
Lemma build_data_lookup df k v :
  build_data df !! k = Some v ↔
  ∃ pre r post, df = (pre ++ r :: post)%list
    ∧ row_kept r = true ∧ row_key r = k ∧ row_val r = v
    ∧ Forall (λ r', ¬ (row_kept r' = true ∧ row_key r' = k)) post.
Proof.
  revert v. induction df as [|x df IH] using rev_ind; intros v.
  - unfold build_data; simpl. rewrite lookup_empty. split; [done|].
    intros (pre & r & post & H & _). by destruct pre.
  - rewrite build_data_snoc. unfold store_row.
    destruct (row_kept x) eqn:Hk; [destruct (decide (row_key x = k)) as [<-|Hne]|].
    + rewrite lookup_insert_eq. split.
      * intros [= <-]. exists df, x, []. repeat split; auto.
      * intros (pre & r & post & H & Hr & Hkey & Hv & Hpost).
        destruct post as [|y post _] using rev_ind.
        -- apply app_inj_tail in H as [_ ->]. by rewrite Hv.
        -- rewrite app_comm_cons, app_assoc in H.
           apply app_inj_tail in H as [_ ->].
           apply Forall_app in Hpost as [_ Hy].
           rewrite Forall_singleton in Hy. exfalso. apply Hy. auto.
    + rewrite lookup_insert_ne by done. rewrite IH. split.
      * intros (pre & r & post & -> & Hr & Hkey & Hv & Hpost).
        exists pre, r, (post ++ [x])%list. rewrite <- app_assoc. repeat split; try done.
        apply Forall_app. split; [done|]. apply Forall_singleton.
        by intros [_ ?].
      * intros (pre & r & post & H & Hr & Hkey & Hv & Hpost).
        destruct post as [|y post _] using rev_ind.
        -- apply app_inj_tail in H as [_ ->]. done.
        -- rewrite app_comm_cons, app_assoc in H.
           apply app_inj_tail in H as [-> ->].
           apply Forall_app in Hpost as [Hpost _]. by exists pre, r, post.
    + rewrite IH. split.
      * intros (pre & r & post & -> & Hr & Hkey & Hv & Hpost).
        exists pre, r, (post ++ [x])%list. rewrite <- app_assoc. repeat split; try done.
        apply Forall_app. split; [done|]. apply Forall_singleton.
        intros [Hx _]. congruence.
      * intros (pre & r & post & H & Hr & Hkey & Hv & Hpost).
        destruct post as [|y post _] using rev_ind.
        -- apply app_inj_tail in H as [_ ->]. congruence.
        -- rewrite app_comm_cons, app_assoc in H.
           apply app_inj_tail in H as [-> ->].
           apply Forall_app in Hpost as [Hpost _]. by exists pre, r, post.
Qed.

(** Every value stored in the lookup is a non-empty trimmed cell text. *)
Lemma build_data_value_nonempty df k v : build_data df !! k = Some v → v ≠ "".
Proof.
  rewrite build_data_lookup. intros (pre & r & post & _ & Hr & _ & <- & _).
  by apply row_kept_true in Hr as (_ & ? & _).
Qed.


Lemma has_at_contains s : has_at s ↔ contains_char "@" s = true.
Proof. unfold has_at. by rewrite contains_char_spec. Qed.


Lemma get_Some df k : get (build_data df) k ≠ "" →
  build_data df !! k = Some (get (build_data df) k).
Proof.
  unfold get. destruct (build_data df !! k); simpl; [done|congruence].
Qed.

(** What [parse_xlsx] returns, by cases on the file and its fields. *)
Lemma parse_xlsx_Some cfg d r :
  result (parse_xlsx cfg d) = Ret (Some r) →
  ∃ df, read_excel d = Ret df ∧ all (required_values df) = true
    ∧ parse_xlsx cfg d = ([], Ret (Some r))
    ∧ r = {| file := doc_name d;
             ritm := get (build_data df) "RITM";
             aide_id := get (build_data df) "AIDE_ID";
             aide_name := get (build_data df) "AIDE NAME";
             to_email :=
               if contains_char "@" (get (build_data df) "Application Owner")
               then get (build_data df) "Application Owner"
               else get (build_data df) "Application Owner"
                    ++ "@" ++ EMAIL_DOMAIN cfg |}.
Proof.
  destruct (read_excel d) as [df|e] eqn:H.
  - destruct (all (required_values df)) eqn:Hall.
    + rewrite (parse_xlsx_record _ _ _ H Hall). intros [= <-]. by exists df.
    + rewrite (parse_xlsx_missing _ _ _ H Hall). discriminate.
  - rewrite (parse_xlsx_unreadable _ _ _ H). discriminate.
Qed.

(** C1. For every extracted record: when the owner text read under the key
    [Application Owner] contains the character [@], the recipient address is
    that text unchanged; otherwise it is that text followed by [@] and the
    configured [EMAIL_DOMAIN]. *)
Theorem recipient_resolution cfg d r :
  result (parse_xlsx cfg d) = Ret (Some r) →
  ∃ df, read_excel d = Ret df ∧
    let owner_raw := get (build_data df) "Application Owner" in
    (has_at owner_raw → to_email r = owner_raw)
    ∧ (¬ has_at owner_raw → to_email r = owner_raw ++ "@" ++ EMAIL_DOMAIN cfg).
Proof.
  intros (df & Hdf & _ & _ & ->)%parse_xlsx_Some. exists df. split; [done|].
  simpl. rewrite has_at_contains.
  destruct (contains_char "@" _); split; intros; congruence.
Qed.

Lemma recipient_resolution_witness :
  ∃ df, read_excel Sample.doc_nkelly = Ret df ∧
    let owner_raw := get (build_data df) "Application Owner" in
    (has_at owner_raw → to_email Sample.rec_finance = owner_raw)
    ∧ (¬ has_at owner_raw →
       to_email Sample.rec_finance = owner_raw ++ "@" ++ EMAIL_DOMAIN Sample.cfg_smtp).
Proof.
  apply (recipient_resolution Sample.cfg_smtp Sample.doc_nkelly Sample.rec_finance).
  vm_compute. reflexivity.
Defined.

(** The two examples of the specification. *)
Example recipient_bare_username :
  result (parse_xlsx Sample.cfg_smtp Sample.doc_nkelly) = Ret (Some Sample.rec_finance).
Proof. vm_compute. reflexivity. Qed.

Example recipient_full_address :
  ∃ r, result (parse_xlsx Sample.cfg_smtp Sample.doc_jdoe) = Ret (Some r)
       ∧ to_email r = "jdoe@other.com".
Proof. eexists. split; vm_compute; reflexivity. Qed.


(** ** The lookup and the first two columns *)

Lemma row_key_column r : row_key r = trimmed (column 0 r).
Proof. by destruct r as [[|t] rest]. Qed.

Lemma row_val_column r : row_val r = trimmed (column 1 r).
Proof. by destruct r as [c0 [|[|t] rest]]. Qed.

(** The script reads a cell as [reads] says. *)
Lemma reads_trimmed c t : reads c t ↔ trimmed c = t.
Proof. destruct c as [|s]; cbn; [split; congruence|apply strip_trims]. Qed.

Lemma carries_row r k v : carries r k v ↔ row_key r = k ∧ row_val r = v.
Proof. unfold carries. by rewrite !reads_trimmed, row_key_column, row_val_column. Qed.

Lemma ascii_forall (P : ascii → bool) :
  forallb (λ i, P (ascii_of_nat i)) (seq 0 256) = true → ∀ c, P c = true.
Proof.
  intros H c. rewrite forallb_forall in H.
  pose proof (nat_ascii_bounded c).
  specialize (H (nat_of_ascii c) ltac:(apply in_seq; lia)).
  by rewrite ascii_nat_embedding in H.
Qed.

Lemma lower_char_n c : lower_char c = "n"%char → c = "n"%char ∨ c = "N"%char.
Proof.
  pose proof (ascii_forall
    (λ c, implb (Ascii.eqb (lower_char c) "n")
                (Ascii.eqb c "n" || Ascii.eqb c "N")) ltac:(vm_compute; reflexivity) c) as H.
  intros Hc. cbv beta in H. rewrite Hc in H. cbn in H.
  apply orb_true_iff in H as [H|H]; apply Ascii.eqb_eq in H; auto.
Qed.

Lemma lower_char_a c : lower_char c = "a"%char → c = "a"%char ∨ c = "A"%char.
Proof.
  pose proof (ascii_forall
    (λ c, implb (Ascii.eqb (lower_char c) "a")
                (Ascii.eqb c "a" || Ascii.eqb c "A")) ltac:(vm_compute; reflexivity) c) as H.
  intros Hc. cbv beta in H. rewrite Hc in H. cbn in H.
  apply orb_true_iff in H as [H|H]; apply Ascii.eqb_eq in H; auto.
Qed.

(** The test [val.lower() == "nan"] holds of the eight spellings of the
    placeholder and of nothing else. *)
Lemma lower_nan v : lower v = "nan" ↔ placeholder v.
Proof.
  unfold placeholder. split.
  - destruct v as [|c1 [|c2 [|c3 [|c4 v]]]]; try discriminate.
    unfold lower. cbn [map_chars].
    intros [= [-> | ->]%lower_char_n [-> | ->]%lower_char_a [-> | ->]%lower_char_n];
      set_solver.
  - intros H. repeat (apply elem_of_cons in H as [->|H]; [reflexivity|]).
    by apply elem_of_nil in H.
Qed.

Lemma placeholder_dec v : Decision (placeholder v).
Proof. unfold placeholder. apply _. Qed.

(** The guard of the loop, on the text of the first two columns. *)
Lemma row_kept_carries r k v :
  carries r k v → row_kept r = true ↔ k ≠ "" ∧ v ≠ "" ∧ ¬ placeholder v.
Proof. intros [<- <-]%carries_row. by rewrite row_kept_true, lower_nan. Qed.

Lemma build_data_last_filled df k v : build_data df !! k = Some v ↔ last_filled df k v.
Proof.
  rewrite build_data_lookup. unfold last_filled.
  split; intros (pre & r & post & -> & H); exists pre, r, post; (split; [done|]).
  - destruct H as (Hr & Hk & Hv & Hpost).
    assert (carries r k v) as Hc by (by apply carries_row).
    apply (row_kept_carries _ _ _ Hc) in Hr as (? & ? & ?).
    do 4 (split; [done|]).
    eapply Forall_impl; [exact Hpost|]. intros r' Hr' v' Hc'. cbv beta in Hr'.
    destruct (decide (v' = "")) as [|Hne]; [by left|].
    destruct (placeholder_dec v') as [|Hno]; [by right|].
    destruct Hr'. split; [|by apply carries_row in Hc' as [? _]].
    by apply (row_kept_carries _ _ _ Hc').
  - destruct H as (Hc & Hk & Hv & Hnan & Hpost).
    split; [by apply (row_kept_carries _ _ _ Hc)|].
    apply carries_row in Hc as [? ?]. split; [done|]. split; [done|].
    eapply Forall_impl; [exact Hpost|]. intros r' Hr' [Hkept Hkey]. cbv beta in Hr'.
    assert (carries r' k (row_val r')) as Hc' by (by apply carries_row).
    apply (row_kept_carries _ _ _ Hc') in Hkept as (_ & ? & ?).
    by destruct (Hr' _ Hc').
Qed.

(** C4, as the specification words it, fails: a row whose first column is
    blank has a first non-empty cell, yet the script stores nothing for it. *)
Lemma first_nonempty_cell_is_not_the_key :
  spec_build_data Sample.shifted_sheet !! "AIDE_ID" = Some "A100"
  ∧ build_data Sample.shifted_sheet !! "AIDE_ID" = None.
Proof. split; vm_compute; reflexivity. Qed.

(** C4, amended.  The lookup binds [k] to [v] exactly when some row has [k]
    as the text of its first column and [v] as the text of its second
    column, both read without the whitespace at their ends and blank or
    absent cells reading as empty, neither is empty, [v] is not the
    placeholder [nan] in any letter case, and no later row with the same key
    has a value that would be kept: the last kept row wins. *)
Theorem lookup_from_first_two_columns (df : frame) (k v : string) :
  build_data df !! k = Some v ↔
  ∃ pre r post, df = (pre ++ r :: post)%list
    ∧ reads (column 0 r) k ∧ reads (column 1 r) v
    ∧ k ≠ "" ∧ v ≠ "" ∧ ¬ placeholder v
    ∧ Forall (λ r', ∀ v', reads (column 0 r') k → reads (column 1 r') v' →
                    v' = "" ∨ placeholder v') post.
Proof.
  rewrite build_data_last_filled. unfold last_filled, carries.
  split; intros (pre & r & post & -> & H); exists pre, r, post; (split; [done|]).
  - destruct H as ([? ?] & ? & ? & ? & Hpost). do 5 (split; [done|]).
    eapply Forall_impl; [exact Hpost|]. intros r' Hr' v' ? ?. by apply Hr'.
  - destruct H as (? & ? & ? & ? & ? & Hpost). do 4 (split; [done|]).
    eapply Forall_impl; [exact Hpost|]. intros r' Hr' v' [? ?]. by apply Hr'.
Qed.




(** Whitespace of any kind around a key or a value is dropped, and a field
    whose only value is a spelling of the placeholder keeps the file from
    yielding a record. *)
Example trimming_and_placeholder :
  let nbsp := utf8 [194; 160] in
  let em_space := utf8 [226; 128; 131] in
  build_data [Row (Val ("RITM" ++ nbsp)) [Val (em_space ++ "REQ1" ++ nbsp)]] !! "RITM"
  = Some "REQ1"
  ∧ build_data [Sample.kv "RITM" "REQ1"; Sample.kv ("RITM" ++ nbsp) "REQ2"] !! "RITM"
    = Some "REQ2"
  ∧ result (parse_xlsx Sample.cfg_smtp
              {| doc_name := "finance.xlsx"; read_excel := Ret (Sample.sheet "NAN") |})
    = Ret None
  ∧ result (parse_xlsx Sample.cfg_smtp
              {| doc_name := "finance.xlsx";
                 read_excel := Ret (Sample.sheet ("nkelly13" ++ nbsp)) |})
    = Ret (Some Sample.rec_finance).
Proof. repeat split; vm_compute; reflexivity. Qed.

Lemma spec_key_value_row r :
  trimmed (column 0 r) ≠ "" →
  spec_key_value (iloc0 r :: iloc_rest r) = (row_key r, row_val r).
Proof.
  rewrite row_key_column, row_val_column.
  destruct r as [c0 [|c1 rest]]; intros H%truthy_true;
    unfold column in *; simpl in *; by rewrite H.
Qed.

(** Where the first column of every row is filled in, the script builds the
    lookup the specification describes. *)
Lemma spec_build_data_agrees df :
  Forall (λ r, trimmed (column 0 r) ≠ "") df → spec_build_data df = build_data df.
Proof.
  unfold spec_build_data, build_data. generalize (∅ : gmap string string).
  induction df as [|r df IH]; intros data Hdf; [done|].
  apply Forall_cons in Hdf as [Hr Hdf]. simpl. rewrite <- (IH _ Hdf). f_equal.
  unfold spec_store_row, store_row, row_kept, in_tuple.
  rewrite (spec_key_value_row _ Hr). simpl existsb.
  destruct (truthy (row_key r)); [|done].
  destruct (truthy (row_val r)) eqn:Hv; [|done].
  assert (String.eqb (lower (row_val r)) "" = false) as ->.
  { apply String.eqb_neq. rewrite lower_empty. by apply truthy_true. }
  by rewrite !orb_false_r.
Qed.

(** Trimming, duplicates, the placeholder and blank cells on one sheet. *)
Example lookup_examples :
  let df := [Sample.kv " RITM" " REQ1 "; Sample.kv "RITM" "REQ2"; Sample.kv "RITM" "NaN";
             Sample.kv "RITM" "   "; Row (Val "AIDE_ID") [NA]; Row (Val "AIDE NAME") [];
             Row NA [Val "orphan"]; Row (Val "Application Owner") [Val "jdoe"; Val "x"]] in
  build_data df !! "RITM" = Some "REQ2"
  ∧ build_data df !! "AIDE_ID" = None
  ∧ build_data df !! "AIDE NAME" = None
  ∧ build_data df !! "Application Owner" = Some "jdoe"
  ∧ size (build_data df) = 2.
Proof. repeat split; vm_compute; reflexivity. Qed.

(** ** [try]/[except] *)

Section try_except_facts.
Context {A : Type}.
Implicit Types (body : M A) (handler : exn → M A).

Lemma isinstance_Exception e : isinstance e Exception = true.
Proof. reflexivity. Qed.

Lemma try_except_Ret body cls handler a :
  result body = Ret a → try_except body cls handler = body.
Proof. destruct body as [t [a'|e]]; [done|discriminate]. Qed.

Lemma try_except_caught body cls handler e :
  result body = Raise e → isinstance e cls = true →
  try_except body cls handler
  = ((trace body ++ trace (handler e))%list, result (handler e)).
Proof.
  destruct body as [t [a'|e']]; intros H Hc; cbn in H; [discriminate|].
  injection H as ->. unfold try_except. by rewrite Hc.
Qed.

Lemma try_except_uncaught body cls handler e :
  result body = Raise e → isinstance e cls = false →
  try_except body cls handler = body.
Proof.
  destruct body as [t [a'|e']]; intros H Hc; cbn in H; [discriminate|].
  injection H as ->. unfold try_except. by rewrite Hc.
Qed.

(** [except Exception] with a handler that returns lets nothing escape. *)
Lemma try_except_Exception_returns body handler :
  (∀ e, ∃ a, result (handler e) = Ret a) →
  ∃ a, result (try_except body Exception handler) = Ret a.
Proof.
  intros Hh. destruct (result body) as [a|e] eqn:Hb.
  - rewrite (try_except_Ret _ _ _ _ Hb). eauto.
  - rewrite (try_except_caught _ _ _ _ Hb (isinstance_Exception e)). apply Hh.
Qed.
End try_except_facts.

(** ** The two transports *)

Lemma send_via_outlook_unavailable w cfg r html :
  win32com_installed w = false →
  send_via_outlook w cfg r html
  = ([Log ERROR "win32com not available. Install with: pip install pywin32"],
     Ret false).
Proof. intros H. unfold send_via_outlook. rewrite H. reflexivity. Qed.

Lemma send_via_outlook_installed w cfg r html :
  win32com_installed w = true →
  send_via_outlook w cfg r html
  = try_except (outlook_session w cfg r html) Exception
      (λ e, log_error ("[FAILED] " ++ file r ++ " → " ++ to_email r
                       ++ " : " ++ exn_str e);;
            mret false).
Proof.
  intros H. unfold send_via_outlook. rewrite H.
  cbv [external try_except mbind M_bind mret M_ret fst snd negb app].
  by destruct (outlook_session w cfg r html) as [t [b|e]].
Qed.

(** [send_via_outlook] always returns [True] or [False]. *)
Lemma send_via_outlook_returns w cfg r html :
  ∃ b, result (send_via_outlook w cfg r html) = Ret b.
Proof.
  destruct (win32com_installed w) eqn:H.
  - rewrite (send_via_outlook_installed _ _ _ _ H).
    apply try_except_Exception_returns. intros e. by exists false.
  - rewrite (send_via_outlook_unavailable _ _ _ _ H). eauto.
Qed.

(** [send_via_outlook], step by step. *)
Lemma send_via_outlook_steps w cfg r html :
  send_via_outlook w cfg r html
  = if win32com_installed w then
      match result (outlook_session w cfg r html) with
      | Ret b => (trace (outlook_session w cfg r html), Ret b)
      | Raise e =>
          ((trace (outlook_session w cfg r html)
            ++ [Log ERROR ("[FAILED] " ++ file r ++ " → " ++ to_email r
                           ++ " : " ++ exn_str e)])%list,
           Ret false)
      end
    else ([Log ERROR "win32com not available. Install with: pip install pywin32"],
          Ret false).
Proof.
  destruct (win32com_installed w) eqn:Hw.
  - rewrite (send_via_outlook_installed _ _ _ _ Hw).
    by destruct (outlook_session w cfg r html) as [t [b|e]].
  - by rewrite (send_via_outlook_unavailable _ _ _ _ Hw).
Qed.

(** The three ways the banner step of [send_via_smtp] can go. *)
Lemma smtp_embed_banner_read w msg data :
  open_banner w = Ret data →
  smtp_embed_banner w msg
  = ([], Ret (attach msg {| img_data := data; img_subtype := "jpeg";
                            img_content_id := "<orbit_banner>";
                            img_disposition := "inline";
                            img_filename := "orbit_banner.jpeg" |})).
Proof. intros H. unfold smtp_embed_banner. by rewrite H. Qed.

Lemma smtp_embed_banner_absent w msg :
  banner_absent w →
  smtp_embed_banner w msg
  = ([Log WARNING "Banner image not found — email will send without it."], Ret msg).
Proof.
  intros (e & H & He). unfold smtp_embed_banner. rewrite H.
  unfold try_except. cbn [mbind M_bind]. by rewrite He.
Qed.

Lemma smtp_embed_banner_escapes w msg e :
  open_banner w = Raise e → isinstance e FileNotFoundError = false →
  smtp_embed_banner w msg = ([], Raise e).
Proof.
  intros H He. unfold smtp_embed_banner. rewrite H.
  unfold try_except. cbn [mbind M_bind]. by rewrite He.
Qed.

Lemma banner_safe_cases w :
  banner_safe w ↔ (∃ data, open_banner w = Ret data) ∨ banner_absent w.
Proof.
  unfold banner_safe, banner_absent. destruct (open_banner w) as [data|e].
  - split; [eauto|done].
  - split; [eauto|]. by intros [[? [=]]|(? & [= <-] & ?)].
Qed.

Lemma smtp_embed_banner_Ret w msg msg' :
  result (smtp_embed_banner w msg) = Ret msg' → banner_safe w.
Proof.
  unfold banner_safe. destruct (open_banner w) as [data|e] eqn:H; [done|].
  destruct (isinstance e FileNotFoundError) eqn:He; [done|].
  by rewrite (smtp_embed_banner_escapes _ _ _ H He).
Qed.

Lemma smtp_embed_banner_safe w msg :
  banner_safe w → ∃ msg', result (smtp_embed_banner w msg) = Ret msg'.
Proof.
  intros [[data H]|H]%banner_safe_cases.
  - rewrite (smtp_embed_banner_read _ _ _ H). eauto.
  - rewrite (smtp_embed_banner_absent _ _ H). eauto.
Qed.

(** Once the message is put together, [send_via_smtp] is the guarded session. *)
Lemma send_via_smtp_embedded w cfg r html msg :
  result (smtp_embed_banner w (smtp_headers cfg r html)) = Ret msg →
  result (send_via_smtp w cfg r html)
  = result (try_except
              (smtp_session w cfg r msg;;
               log_info ("[SENT] " ++ file r ++ " → " ++ to_email r);;
               mret true)
              Exception
              (λ e, log_error ("[FAILED] " ++ file r ++ " → " ++ to_email r
                               ++ " : " ++ exn_str e);;
                    mret false)).
Proof. intros H. unfold send_via_smtp. by rewrite (result_bind _ _ _ H). Qed.

(** With a banner that is readable or absent, [send_via_smtp] always returns
    [True] or [False]. *)
Lemma send_via_smtp_returns w cfg r html :
  banner_safe w → ∃ b, result (send_via_smtp w cfg r html) = Ret b.
Proof.
  intros [msg H]%(smtp_embed_banner_safe _ (smtp_headers cfg r html)).
  rewrite (send_via_smtp_embedded _ _ _ _ _ H).
  apply try_except_Exception_returns. intros e. by exists false.
Qed.

(** The only exception that leaves [send_via_smtp] comes from reading a
    banner file that is there. *)
Lemma send_via_smtp_raises w cfg r html e :
  result (send_via_smtp w cfg r html) = Raise e →
  open_banner w = Raise e ∧ isinstance e FileNotFoundError = false.
Proof.
  intros H. destruct (open_banner w) as [data|e'] eqn:Hb.
  - destruct (send_via_smtp_returns w cfg r html) as [b Hr]; [|congruence].
    unfold banner_safe. by rewrite Hb.
  - destruct (isinstance e' FileNotFoundError) eqn:He.
    + destruct (send_via_smtp_returns w cfg r html) as [b Hr]; [|congruence].
      unfold banner_safe. by rewrite Hb.
    + unfold send_via_smtp in H.
      rewrite (smtp_embed_banner_escapes _ _ _ Hb He) in H. cbn in H.
      by injection H as ->.
Qed.

(** ** The subject line *)

Lemma subjects_sent_app t1 t2 :
  subjects_sent (t1 ++ t2) = (subjects_sent t1 ++ subjects_sent t2)%list.
Proof. apply omap_app. Qed.

(** The Outlook session, step by step: it stops at the first call that
    raises, and hands the item over when none does. *)
Lemma outlook_session_steps w cfg r html :
  outlook_session w cfg r html
  = match first_fault (outlook_calls w cfg r) with
    | None =>
        ([OutlookDispatch; OutlookSend (outlook_item w cfg r html);
          Log INFO ("[SENT] " ++ file r ++ " → " ++ to_email r)], Ret true)
    | Some e => ([OutlookDispatch], Raise e)
    end.
Proof.
  unfold outlook_session, outlook_calls, outlook_item, first_fault, first_some.
  destruct (ol_dispatch (outlook w r)); [done|].
  destruct (ol_create_item (outlook w r)); [done|].
  destruct (ol_set_to (outlook w r)); [done|].
  destruct (truthy (CC_EMAIL cfg));
    [destruct (ol_set_cc (outlook w r)); [done|]|];
    (destruct (ol_set_subject (outlook w r)); [done|]);
    (destruct (attachments_add w r); [done|]);
    (destruct (ol_set_property (outlook w r)); [done|]);
    (destruct (ol_set_body (outlook w r)); [done|]);
    (destruct (ol_send (outlook w r)); done).
Qed.

Lemma first_fault_None calls :
  first_fault calls = None ↔ Forall (λ call, call = None) calls.
Proof. apply first_some_None. Qed.

Lemma attachments_add_None w r :
  attachments_add w r = None ↔ ¬ banner_absent w ∧ ol_attach (outlook w r) = None.
Proof.
  unfold attachments_add, banner_absent. destruct (open_banner w) as [data|e].
  - split; [|by intros [_ ?]]. intros H. split; [|done]. by intros (e & [=] & _).
  - destruct (isinstance e FileNotFoundError) eqn:He.
    + split; [done|]. intros [Hno _]. destruct Hno. by exists e.
    + split; [|by intros [_ ?]]. intros H. split; [|done].
      intros (e' & [= <-] & ?). congruence.
Qed.

(** No call of the session raises. *)
Lemma outlook_calls_pass w cfg r :
  first_fault (outlook_calls w cfg r) = None ↔
  ol_dispatch (outlook w r) = None ∧ ol_create_item (outlook w r) = None
  ∧ ol_set_to (outlook w r) = None
  ∧ (CC_EMAIL cfg ≠ "" → ol_set_cc (outlook w r) = None)
  ∧ ol_set_subject (outlook w r) = None
  ∧ ¬ banner_absent w ∧ ol_attach (outlook w r) = None
  ∧ ol_set_property (outlook w r) = None ∧ ol_set_body (outlook w r) = None
  ∧ ol_send (outlook w r) = None.
Proof.
  rewrite first_fault_None. unfold outlook_calls.
  destruct (truthy (CC_EMAIL cfg)) eqn:Hcc;
    rewrite !Forall_app, !Forall_cons, !Forall_nil, attachments_add_None.
  - apply truthy_true in Hcc. tauto.
  - apply truthy_false in Hcc. rewrite Hcc. tauto.
Qed.

Lemma outlook_session_subjects w cfg r html :
  Forall (eq ("Welcome to ORBIT Power BI - Your Guide to Getting Started - "
              ++ "[" ++ ritm r ++ "][" ++ aide_id r ++ "][" ++ aide_name r ++ "]"))
         (subjects_sent (trace (outlook_session w cfg r html))).
Proof.
  rewrite outlook_session_steps. destruct (first_fault _); cbn; repeat constructor.
Qed.

Lemma smtp_embed_banner_subject w msg msg' :
  result (smtp_embed_banner w msg) = Ret msg' → msg_Subject msg' = msg_Subject msg.
Proof.
  intros H. pose proof (smtp_embed_banner_Ret _ _ _ H) as [[data Hb]|Hb]%banner_safe_cases.
  - rewrite (smtp_embed_banner_read _ _ _ Hb) in H. by injection H as <-.
  - rewrite (smtp_embed_banner_absent _ _ Hb) in H. by injection H as <-.
Qed.

Lemma smtp_embed_banner_no_mail w msg :
  subjects_sent (trace (smtp_embed_banner w msg)) = [].
Proof.
  destruct (open_banner w) as [data|e] eqn:Hb.
  - by rewrite (smtp_embed_banner_read _ _ _ Hb).
  - destruct (isinstance e FileNotFoundError) eqn:He.
    + rewrite smtp_embed_banner_absent; [done|by exists e].
    + by rewrite (smtp_embed_banner_escapes _ _ _ Hb He).
Qed.

(** Case analysis on everything an SMTP session depends on. *)
Ltac smtp_cases w cfg r :=
  destruct (smtp_connect (smtp w r)), (smtp_quit (smtp w r)), (SMTP_USE_TLS cfg),
    (smtp_starttls (smtp w r)), (truthy (SMTP_USER cfg) && truthy (SMTP_PASSWORD cfg)),
    (smtp_login (smtp w r)), (smtp_sendmail (smtp w r)), (truthy (CC_EMAIL cfg)).

Lemma smtp_session_subjects w cfg r msg :
  Forall (eq (msg_Subject msg)) (subjects_sent (trace (smtp_session w cfg r msg))).
Proof.
  unfold smtp_session, with_server.
  smtp_cases w cfg r;
    cbn [external trace subjects_sent omap list_omap mbind M_bind mret M_ret raise emit
         fst snd app];
    repeat constructor.
Qed.

Lemma try_except_subjects {A} (body : M A) cls handler :
  (∀ e, subjects_sent (trace (handler e)) = []) →
  subjects_sent (trace (try_except body cls handler)) = subjects_sent (trace body).
Proof.
  intros Hh. destruct body as [t [a|e]]; [done|]. unfold try_except.
  destruct (isinstance e cls); [|done]. cbn [trace fst].
  rewrite subjects_sent_app. change (fst (handler e)) with (trace (handler e)).
  rewrite Hh. apply app_nil_r.
Qed.

Lemma send_via_outlook_subjects w cfg r html :
  Forall (eq ("Welcome to ORBIT Power BI - Your Guide to Getting Started - "
              ++ "[" ++ ritm r ++ "][" ++ aide_id r ++ "][" ++ aide_name r ++ "]"))
         (subjects_sent (trace (send_via_outlook w cfg r html))).
Proof.
  destruct (win32com_installed w) eqn:H.
  - rewrite (send_via_outlook_installed _ _ _ _ H), try_except_subjects by done.
    apply outlook_session_subjects.
  - rewrite (send_via_outlook_unavailable _ _ _ _ H). constructor.
Qed.

Lemma send_via_smtp_subjects w cfg r html :
  Forall (eq ("Welcome to ORBIT Power BI - Your Guide to Getting Started - "
              ++ "[" ++ ritm r ++ "][" ++ aide_id r ++ "][" ++ aide_name r ++ "]"))
         (subjects_sent (trace (send_via_smtp w cfg r html))).
Proof.
  unfold send_via_smtp.
  destruct (result (smtp_embed_banner w (smtp_headers cfg r html))) as [msg|e] eqn:H.
  - rewrite (trace_bind _ _ _ H), subjects_sent_app, smtp_embed_banner_no_mail.
    rewrite try_except_subjects by done. cbn [app].
    pose proof (smtp_embed_banner_subject _ _ _ H) as Hs. cbn [smtp_headers msg_Subject] in Hs.
    rewrite <- Hs.
    destruct (result (smtp_session w cfg r msg)) as [[]|e] eqn:Hsess.
    + rewrite (trace_bind _ _ _ Hsess), subjects_sent_app. cbn. rewrite app_nil_r.
      apply smtp_session_subjects.
    + rewrite (result_bind_Raise _ _ _ Hsess). apply smtp_session_subjects.
  - rewrite (result_bind_Raise _ _ _ H). cbn [trace fst].
    change (fst ?m) with (trace m). rewrite smtp_embed_banner_no_mail. constructor.
Qed.

(** With a healthy transport each function hands off one message. *)
Lemma send_via_smtp_healthy w cfg r html :
  banner_safe w →
  smtp w r = Sample.healthy_smtp →
  result (send_via_smtp w cfg r html) = Ret true
  ∧ subjects_sent (trace (send_via_smtp w cfg r html))
    = ["Welcome to ORBIT Power BI - Your Guide to Getting Started - "
       ++ "[" ++ ritm r ++ "][" ++ aide_id r ++ "][" ++ aide_name r ++ "]"].
Proof.
  intros [[data Hb]|Hb]%banner_safe_cases Hs; unfold send_via_smtp;
    [rewrite (smtp_embed_banner_read _ _ _ Hb)|rewrite (smtp_embed_banner_absent _ _ Hb)];
    unfold smtp_session, with_server; rewrite Hs;
    destruct (SMTP_USE_TLS cfg), (truthy (SMTP_USER cfg) && truthy (SMTP_PASSWORD cfg)),
      (truthy (CC_EMAIL cfg)); by cbn.
Qed.

Lemma send_via_outlook_healthy w cfg r html :
  win32com_installed w = true →
  first_fault (outlook_calls w cfg r) = None →
  result (send_via_outlook w cfg r html) = Ret true
  ∧ subjects_sent (trace (send_via_outlook w cfg r html))
    = ["Welcome to ORBIT Power BI - Your Guide to Getting Started - "
       ++ "[" ++ ritm r ++ "][" ++ aide_id r ++ "][" ++ aide_name r ++ "]"].
Proof.
  intros Hw Ho.
  by rewrite (send_via_outlook_installed _ _ _ _ Hw), outlook_session_steps, Ho.
Qed.

(** C5. Whatever the world does, every message that either transport hands
    off for a record carries the fixed prefix followed by
    [[ticket_id][case_id][case_name]]; for the record [REQ1], [A100],
    [Finance App] both transports send the subject of the specification's
    example. *)
Theorem subject_format w cfg r html :
  let expected :=
    "Welcome to ORBIT Power BI - Your Guide to Getting Started - "
    ++ "[" ++ ritm r ++ "][" ++ aide_id r ++ "][" ++ aide_name r ++ "]" in
  Forall (eq expected) (subjects_sent (trace (send_via_outlook w cfg r html)))
  ∧ Forall (eq expected) (subjects_sent (trace (send_via_smtp w cfg r html)))
  ∧ msg_Subject (smtp_headers cfg r html) = expected
  ∧ subjects_sent (trace (send_via_outlook Sample.with_banner Sample.cfg_outlook
                            Sample.rec_finance html))
    = ["Welcome to ORBIT Power BI - Your Guide to Getting Started - [REQ1][A100][Finance App]"]
  ∧ subjects_sent (trace (send_via_smtp Sample.with_banner Sample.cfg_smtp
                            Sample.rec_finance html))
    = ["Welcome to ORBIT Power BI - Your Guide to Getting Started - [REQ1][A100][Finance App]"].
Proof.
  repeat split.
  - apply send_via_outlook_subjects.
  - apply send_via_smtp_subjects.
Qed.

(** ** A missing banner image *)

Lemma banner_absent_attach w r :
  banner_absent w → attachments_add w r = Some (Exn com_error "Cannot find this file.").
Proof. intros (e & H & He). unfold attachments_add. by rewrite H, He. Qed.

(** With the banner file absent some call of the session raises. *)
Lemma banner_absent_fault w cfg r :
  banner_absent w → ∃ e, first_fault (outlook_calls w cfg r) = Some e.
Proof.
  intros Hb. destruct (first_fault _) as [e|] eqn:H; [by exists e|].
  apply outlook_calls_pass in H. tauto.
Qed.

(** The SMTP path sends without the image. *)
Lemma send_via_smtp_without_banner w cfg r html :
  banner_absent w →
  Forall (λ m, msg_images m = []) (smtp_sent (trace (send_via_smtp w cfg r html))).
Proof.
  intros Hb. unfold send_via_smtp. rewrite (smtp_embed_banner_absent _ _ Hb).
  unfold smtp_session, with_server.
  smtp_cases w cfg r; cbn; repeat constructor.
Qed.

Lemma send_via_smtp_without_banner_sends w cfg r html :
  banner_absent w →
  smtp w r = Sample.healthy_smtp →
  result (send_via_smtp w cfg r html) = Ret true
  ∧ ∃ m, smtp_sent (trace (send_via_smtp w cfg r html)) = [m] ∧ msg_images m = [].
Proof.
  intros Hb Hs. unfold send_via_smtp. rewrite (smtp_embed_banner_absent _ _ Hb).
  unfold smtp_session, with_server. rewrite Hs.
  destruct (SMTP_USE_TLS cfg), (truthy (SMTP_USER cfg) && truthy (SMTP_PASSWORD cfg)),
    (truthy (CC_EMAIL cfg)); cbn; eauto.
Qed.

(** The Outlook path attaches the file unconditionally, so it sends nothing. *)
Lemma send_via_outlook_without_banner w cfg r html :
  banner_absent w →
  result (send_via_outlook w cfg r html) = Ret false
  ∧ outlook_sent (trace (send_via_outlook w cfg r html)) = [].
Proof.
  intros [e He]%(banner_absent_fault w cfg r). rewrite send_via_outlook_steps.
  rewrite outlook_session_steps, He. by destruct (win32com_installed w).
Qed.

(** C9, at the failing input: with the banner file absent and both transports
    otherwise healthy, [send_via_smtp] hands the message off without the
    image and returns [True], while [send_via_outlook] hands nothing off and
    returns [False], so the file is recorded as FAILED. *)
Theorem missing_banner_breaks_outlook :
  let w := Sample.no_banner in
  let r := Sample.rec_finance in
  let html := build_html_body w in
  banner_absent w
  ∧ result (send_via_smtp w Sample.cfg_smtp r html) = Ret true
  ∧ (∃ m, smtp_sent (trace (send_via_smtp w Sample.cfg_smtp r html)) = [m]
          ∧ msg_images m = [])
  ∧ result (send_via_outlook w Sample.cfg_outlook r html) = Ret false
  ∧ outlook_sent (trace (send_via_outlook w Sample.cfg_outlook r html)) = []
  ∧ (status <$> match result (file_outcome w Sample.cfg_outlook html Sample.doc_nkelly)
                with Ret o => Some o | Raise _ => None end) = Some "FAILED"
  ∧ (status <$> match result (file_outcome w Sample.cfg_smtp html Sample.doc_nkelly)
                with Ret o => Some o | Raise _ => None end) = Some "SENT".
Proof.
  repeat split.
  - eexists. split; reflexivity.
  - eexists. split; vm_compute; reflexivity.
Qed.

(** ** Choosing the transport *)

Lemma case_fold_char a b :
  upper_char a = upper_char b ↔ lower_char a = lower_char b.
Proof.
  assert (forallb (λ i, forallb (λ j,
            Bool.eqb
              (Ascii.eqb (upper_char (ascii_of_nat i)) (upper_char (ascii_of_nat j)))
              (Ascii.eqb (lower_char (ascii_of_nat i)) (lower_char (ascii_of_nat j))))
            (seq 0 256)) (seq 0 256) = true) as Hall by (vm_compute; reflexivity).
  rewrite forallb_forall in Hall.
  specialize (Hall (nat_of_ascii a)). rewrite forallb_forall in Hall.
  pose proof (nat_ascii_bounded a). pose proof (nat_ascii_bounded b).
  specialize (Hall ltac:(apply in_seq; lia) (nat_of_ascii b) ltac:(apply in_seq; lia)).
  rewrite !ascii_nat_embedding in Hall. apply Bool.eqb_prop in Hall.
  rewrite <- !Ascii.eqb_eq. by rewrite Hall.
Qed.

(** Two texts have the same upper-case form exactly when they have the same
    lower-case form: comparing upper-cased text ignores letter case. *)
Lemma case_fold s t : upper s = upper t ↔ lower s = lower t.
Proof.
  unfold upper, lower. revert t.
  induction s as [|a s IH]; intros [|b t]; simpl; try (split; congruence).
  split; intros [= H1 H2]; f_equal; first [by apply case_fold_char | by apply IH].
Qed.

Lemma uses_outlook_upper cfg :
  uses_outlook cfg = true ↔ upper (SEND_METHOD cfg) = "OUTLOOK".
Proof. unfold uses_outlook. apply String.eqb_eq. Qed.

(** C10. The transport is chosen by comparing the upper-cased [SEND_METHOD]
    with [OUTLOOK], which ignores letter case; every other value, misspelt
    or unknown, selects [send_via_smtp], and the selection itself raises
    nothing. *)
Theorem transport_selection w cfg r html :
  (uses_outlook cfg = true ↔ upper (SEND_METHOD cfg) = "OUTLOOK")
  ∧ (uses_outlook cfg = true ↔ lower (SEND_METHOD cfg) = "outlook")
  ∧ (upper (SEND_METHOD cfg) = "OUTLOOK" →
     send w cfg r html = send_via_outlook w cfg r html)
  ∧ (upper (SEND_METHOD cfg) ≠ "OUTLOOK" →
     send w cfg r html = send_via_smtp w cfg r html).
Proof.
  split; [apply uses_outlook_upper|]. split; [|split].
  - rewrite uses_outlook_upper. apply (case_fold _ "OUTLOOK").
  - intros H%uses_outlook_upper. unfold send. by rewrite H.
  - intros H. unfold send. destruct (uses_outlook cfg) eqn:Hu; [|done].
    by apply uses_outlook_upper in Hu.
Qed.

Example selection_examples :
  uses_outlook (Sample.cfg_method "outlook") = true
  ∧ uses_outlook (Sample.cfg_method "OutLook") = true
  ∧ uses_outlook (Sample.cfg_method "SMTP") = false
  ∧ uses_outlook (Sample.cfg_method "OUTLOK") = false
  ∧ uses_outlook (Sample.cfg_method "Gmail") = false
  ∧ uses_outlook (Sample.cfg_method "") = false
  ∧ uses_outlook (Sample.cfg_method " OUTLOOK") = false.
Proof. repeat split. Qed.

(** ** One pass through the loop body *)

Lemma missing_fields_all df :
  missing_fields df ≠ [] ↔ all (required_values df) = false.
Proof.
  unfold missing_fields, required_values, required_keys, all.
  cbn [fmap list_fmap forallb List.filter].
  destruct (truthy (get (build_data df) "RITM")),
    (truthy (get (build_data df) "AIDE_ID")),
    (truthy (get (build_data df) "AIDE NAME")),
    (truthy (get (build_data df) "Application Owner")); cbn; split; congruence.
Qed.

Lemma file_outcome_unreadable w cfg html d e :
  read_excel d = Raise e →
  file_outcome w cfg html d
  = ([Log INFO ("Processing: " ++ doc_name d);
      Log ERROR ("Cannot open " ++ doc_name d ++ ": " ++ exn_str e)],
     Ret (skipped_row (doc_name d))).
Proof.
  intros H. unfold file_outcome. by rewrite (parse_xlsx_unreadable _ _ _ H).
Qed.

Lemma file_outcome_missing w cfg html d df :
  read_excel d = Ret df →
  all (required_values df) = false →
  file_outcome w cfg html d
  = ([Log INFO ("Processing: " ++ doc_name d);
      Log WARNING ("[" ++ doc_name d ++ "] Missing fields — "
                   ++ "RITM='" ++ get (build_data df) "RITM"
                   ++ "' AIDE_ID='" ++ get (build_data df) "AIDE_ID"
                   ++ "' AIDE_NAME='" ++ get (build_data df) "AIDE NAME"
                   ++ "' Owner='" ++ get (build_data df) "Application Owner" ++ "'")],
     Ret (skipped_row (doc_name d))).
Proof.
  intros H Hall. unfold file_outcome. by rewrite (parse_xlsx_missing _ _ _ H Hall).
Qed.

Lemma file_outcome_record w cfg html d r :
  result (parse_xlsx cfg d) = Ret (Some r) →
  result (file_outcome w cfg html d)
  = match result (send w cfg r html) with
    | Ret ok => Ret {| o_file := file r; o_ritm := ritm r; o_aide_id := aide_id r;
                       o_aide_name := aide_name r; o_to_email := to_email r;
                       status := if ok then "SENT" else "FAILED";
                       error := if ok then "" else "See log" |}
    | Raise e => Raise e
    end.
Proof.
  intros (df & _ & _ & H & _)%parse_xlsx_Some. unfold file_outcome. rewrite H.
  cbv [mbind M_bind log_info emit fst snd result].
  by destruct (send w cfg r html) as [t [ok|e]].
Qed.

(** What a pass records: a known status under the file's own name. *)
Lemma file_outcome_status w cfg html d o :
  result (file_outcome w cfg html d) = Ret o →
  status_known o ∧ o_file o = doc_name d.
Proof.
  unfold status_known.
  destruct (parse_xlsx_returns cfg d) as [[r|] Hp].
  - rewrite (file_outcome_record _ _ _ _ _ Hp).
    apply parse_xlsx_Some in Hp as (df & _ & _ & _ & ->).
    destruct (result (send _ _ _ _)) as [[|]|e]; intros [= <-]; cbn; auto.
  - destruct (read_excel d) as [df|e] eqn:Hd.
    + destruct (all (required_values df)) eqn:Hall.
      * by rewrite (parse_xlsx_record _ _ _ Hd Hall) in Hp.
      * rewrite (file_outcome_missing _ _ _ _ _ Hd Hall). intros [= <-]. cbn. auto.
    + rewrite (file_outcome_unreadable _ _ _ _ _ Hd). intros [= <-]. cbn. auto.
Qed.

Lemma send_returns w cfg r html :
  uses_outlook cfg = true ∨ banner_safe w → ∃ b, result (send w cfg r html) = Ret b.
Proof.
  unfold send. destruct (uses_outlook cfg); intros [H|H]; try done;
    auto using send_via_outlook_returns, send_via_smtp_returns.
Qed.

(** A pass ends normally unless the banner file is there and unreadable
    while the SMTP transport is selected. *)
Lemma file_outcome_returns w cfg html d :
  uses_outlook cfg = true ∨ banner_safe w →
  ∃ o, result (file_outcome w cfg html d) = Ret o.
Proof.
  intros Hsafe. destruct (parse_xlsx_returns cfg d) as [[r|] Hp].
  - rewrite (file_outcome_record _ _ _ _ _ Hp).
    destruct (send_returns w cfg r html Hsafe) as [b ->]. eauto.
  - unfold file_outcome. rewrite (result_bind _ _ ()) by done.
    rewrite (result_bind _ _ _ Hp). cbn. eauto.
Qed.

(** ** The loop and [main] *)

Lemma for_loop_process_file w cfg html docs acc l :
  result (for_loop (process_file w cfg html) docs acc) = Ret l ↔
  ∃ outs, l = (acc ++ outs)%list
    ∧ Forall2 (λ d o, result (file_outcome w cfg html d) = Ret o) docs outs.
Proof.
  revert acc l. induction docs as [|d docs IH]; intros acc l; cbn [for_loop].
  - split.
    + intros [= <-]. exists []. by rewrite app_nil_r.
    + intros (outs & -> & ->%Forall2_nil_inv_l). by rewrite app_nil_r.
  - destruct (result (file_outcome w cfg html d)) as [o|e] eqn:Ho.
    + assert (result (process_file w cfg html acc d) = Ret (acc ++ [o])%list) as Hp.
      { unfold process_file. by rewrite (result_bind _ _ _ Ho). }
      rewrite (result_bind _ _ _ Hp), IH. split.
      * intros (outs & -> & H). exists (o :: outs). rewrite <- app_assoc.
        split; [done|]. by constructor.
      * intros (outs & -> & H).
        apply Forall2_cons_inv_l in H as (o' & outs' & Ho' & H & ->).
        exists outs'. rewrite <- app_assoc. split; [|done].
        rewrite Ho in Ho'. by injection Ho' as ->.
    + assert (result (process_file w cfg html acc d) = Raise e) as Hp.
      { unfold process_file. by rewrite (result_bind_Raise _ _ _ Ho). }
      rewrite (result_bind_Raise _ _ _ Hp). split; [done|].
      intros (outs & _ & H). apply Forall2_cons_inv_l in H as (o' & _ & Ho' & _).
      congruence.
Qed.

(** The loop ends normally when every pass does. *)
Lemma for_loop_returns w cfg html docs acc :
  uses_outlook cfg = true ∨ banner_safe w →
  ∃ l, result (for_loop (process_file w cfg html) docs acc) = Ret l.
Proof.
  intros Hsafe.
  assert (∃ outs, Forall2 (λ d o, result (file_outcome w cfg html d) = Ret o) docs outs)
    as [outs H].
  { induction docs as [|d docs [outs IH]]; [by exists []|].
    destruct (file_outcome_returns w cfg html d Hsafe) as [o Ho].
    exists (o :: outs). by constructor. }
  exists (acc ++ outs)%list. apply for_loop_process_file. eauto.
Qed.


(** On a non-empty listing [main] ends as the loop does and then as the
    writing of the results file does, with the loop's results and their
    counts. *)
Lemma main_nonempty w cfg docs :
  docs ≠ [] →
  result (main w cfg docs)
  = match result (for_loop (process_file w cfg (build_html_body w)) docs []) with
    | Ret l => match open_csv w with
               | None => Ret (Some (summary_of l))
               | Some e => Raise e
               end
    | Raise e => Raise e
    end.
Proof.
  destruct docs as [|d docs]; [done|]. intros _. unfold main.
  rewrite (result_bind _ _ ()) by done. unfold write_csv_log.
  by destruct (for_loop _ _ _) as [t [l|e]], (open_csv w).
Qed.

(** ** Files from which no record comes *)

(** C3, as stated, fails: the error text of a skipped file is the same
    whichever field is missing, and names none of them. *)
Lemma skipped_error_names_no_field :
  let w := Sample.with_banner in
  let cfg := Sample.cfg_smtp in
  let html := build_html_body w in
  missing_fields Sample.sheet_no_aide_id = ["AIDE_ID"]
  ∧ missing_fields Sample.sheet_no_ritm = ["RITM"]
  ∧ result (file_outcome w cfg html Sample.doc_no_aide_id)
    = Ret (skipped_row "broken.xlsx")
  ∧ result (file_outcome w cfg html Sample.doc_no_ritm)
    = Ret (skipped_row "broken.xlsx")
  ∧ error (skipped_row "broken.xlsx") = "Missing required fields"
  ∧ ¬ Forall (λ k, is_infix k (error (skipped_row "broken.xlsx")) = true)
        (missing_fields Sample.sheet_no_aide_id).
Proof.
  repeat split. intros H. apply Forall_cons in H as [H _].
  vm_compute in H. discriminate.
Qed.

(** C3, amended.  A readable file that lacks any of the four required fields
    is recorded as SKIPPED with the fixed error text [Missing required
    fields]; the process log gets a warning that lists the four extracted
    values, and nothing is handed to or asked of a mail transport. *)
Theorem missing_fields_skipped w cfg html d df :
  read_excel d = Ret df →
  missing_fields df ≠ [] →
  result (file_outcome w cfg html d)
  = Ret {| o_file := doc_name d; o_ritm := ""; o_aide_id := ""; o_aide_name := "";
           o_to_email := ""; status := "SKIPPED"; error := "Missing required fields" |}
  ∧ trace (file_outcome w cfg html d)
    = [Log INFO ("Processing: " ++ doc_name d);
       Log WARNING ("[" ++ doc_name d ++ "] Missing fields — "
                    ++ "RITM='" ++ get (build_data df) "RITM"
                    ++ "' AIDE_ID='" ++ get (build_data df) "AIDE_ID"
                    ++ "' AIDE_NAME='" ++ get (build_data df) "AIDE NAME"
                    ++ "' Owner='" ++ get (build_data df) "Application Owner" ++ "'")]
  ∧ Forall (λ ev, is_transport_event ev = false) (trace (file_outcome w cfg html d)).
Proof.
  intros Hd Hall%missing_fields_all.
  rewrite (file_outcome_missing _ _ _ _ _ Hd Hall). repeat split.
  repeat constructor.
Qed.

Lemma missing_fields_skipped_witness :
  let w := Sample.with_banner in
  let cfg := Sample.cfg_smtp in
  let html := build_html_body w in
  let d := Sample.doc_no_aide_id in
  result (file_outcome w cfg html d)
  = Ret {| o_file := "broken.xlsx"; o_ritm := ""; o_aide_id := ""; o_aide_name := "";
           o_to_email := ""; status := "SKIPPED"; error := "Missing required fields" |}
  ∧ trace (file_outcome w cfg html d)
    = [Log INFO "Processing: broken.xlsx";
       Log WARNING "[broken.xlsx] Missing fields — RITM='REQ1' AIDE_ID='' AIDE_NAME='Finance App' Owner='nkelly13'"]
  ∧ Forall (λ ev, is_transport_event ev = false) (trace (file_outcome w cfg html d)).
Proof.
  apply (missing_fields_skipped Sample.with_banner Sample.cfg_smtp
           (build_html_body Sample.with_banner) Sample.doc_no_aide_id
           Sample.sheet_no_aide_id).
  - reflexivity.
  - vm_compute. discriminate.
Defined.

(** C8, as stated, fails: a file that cannot be opened and a file that lacks
    a required field get the same row, error text included. *)
Lemma open_failure_recorded_as_missing_fields :
  let w := Sample.with_banner in
  let cfg := Sample.cfg_smtp in
  let html := build_html_body w in
  (∃ e, read_excel Sample.doc_corrupt = Raise e)
  ∧ (∃ df, read_excel Sample.doc_no_aide_id = Ret df ∧ missing_fields df = ["AIDE_ID"])
  ∧ result (file_outcome w cfg html Sample.doc_corrupt)
    = result (file_outcome w cfg html Sample.doc_no_aide_id)
  ∧ ∃ o, result (file_outcome w cfg html Sample.doc_corrupt) = Ret o
         ∧ status o = "SKIPPED" ∧ error o = "Missing required fields".
Proof. repeat split; eexists; repeat split. Qed.

(** C8, amended.  A file that cannot be opened or parsed is recorded as
    SKIPPED with the error text [Missing required fields], the same row a
    file of that name lacking a required field gets; the two cases differ
    only in the process log, which has an ERROR line [Cannot open ...] with
    the cause for the first and a WARNING line for the second. *)
Theorem unreadable_skipped w cfg html d e :
  read_excel d = Raise e →
  result (file_outcome w cfg html d)
  = Ret {| o_file := doc_name d; o_ritm := ""; o_aide_id := ""; o_aide_name := "";
           o_to_email := ""; status := "SKIPPED"; error := "Missing required fields" |}
  ∧ trace (file_outcome w cfg html d)
    = [Log INFO ("Processing: " ++ doc_name d);
       Log ERROR ("Cannot open " ++ doc_name d ++ ": " ++ exn_str e)]
  ∧ ∀ d' df, doc_name d' = doc_name d → read_excel d' = Ret df → missing_fields df ≠ [] →
      result (file_outcome w cfg html d') = result (file_outcome w cfg html d)
      ∧ (∃ text, trace (file_outcome w cfg html d')
                 = [Log INFO ("Processing: " ++ doc_name d); Log WARNING text]).
Proof.
  intros Hd. rewrite (file_outcome_unreadable _ _ _ _ _ Hd).
  split; [done|]. split; [done|].
  intros d' df Hname Hd' Hmiss%missing_fields_all.
  rewrite (file_outcome_missing _ _ _ _ _ Hd' Hmiss), Hname. eauto.
Qed.

Lemma unreadable_skipped_witness :
  let w := Sample.with_banner in
  let cfg := Sample.cfg_smtp in
  let html := build_html_body w in
  let d := Sample.doc_corrupt in
  result (file_outcome w cfg html d)
  = Ret {| o_file := "broken.xlsx"; o_ritm := ""; o_aide_id := ""; o_aide_name := "";
           o_to_email := ""; status := "SKIPPED"; error := "Missing required fields" |}
  ∧ trace (file_outcome w cfg html d)
    = [Log INFO "Processing: broken.xlsx";
       Log ERROR "Cannot open broken.xlsx: File is not a zip file"]
  ∧ ∀ d' df, doc_name d' = doc_name d → read_excel d' = Ret df → missing_fields df ≠ [] →
      result (file_outcome w cfg html d') = result (file_outcome w cfg html d)
      ∧ (∃ text, trace (file_outcome w cfg html d')
                 = [Log INFO ("Processing: " ++ doc_name d); Log WARNING text]).
Proof.
  apply (unreadable_skipped Sample.with_banner Sample.cfg_smtp
           (build_html_body Sample.with_banner) Sample.doc_corrupt
           (Exn ValueError "File is not a zip file")).
  reflexivity.
Defined.

(** ** Accounting *)

Lemma main_empty w cfg : result (main w cfg []) = Ret None.
Proof. reflexivity. Qed.

(** [main] ends normally when the results file can be written, unless the
    banner file is there and unreadable while the SMTP transport is
    selected. *)
Lemma main_returns w cfg docs :
  uses_outlook cfg = true ∨ banner_safe w → open_csv w = None →
  ∃ s, result (main w cfg docs) = Ret s.
Proof.
  intros Hsafe Hcsv. destruct docs as [|d docs]; [by exists None|].
  rewrite main_nonempty, Hcsv by done.
  destruct (for_loop_returns w cfg (build_html_body w) (d :: docs) [] Hsafe) as [l ->].
  eauto.
Qed.

(** What a finished run on a non-empty listing has recorded. *)
Lemma main_results w cfg docs s :
  result (main w cfg docs) = Ret s →
  Forall2 (λ d o, result (file_outcome w cfg (build_html_body w) d) = Ret o)
          docs (outcomes_of s)
  ∧ match s with
    | Some s => sent s = count_status "SENT" (results s)
                ∧ failed s = count_status "FAILED" (results s)
                ∧ skipped s = count_status "SKIPPED" (results s)
    | None => docs = []
    end.
Proof.
  destruct docs as [|d docs].
  - intros [= <-]. by split; [constructor|].
  - rewrite main_nonempty by done.
    destruct (result (for_loop _ _ _)) as [l|e] eqn:Hl; [|done].
    destruct (open_csv w); [done|].
    intros [= <-]. apply for_loop_process_file in Hl as (outs & -> & H). by cbn.
Qed.

(** ** Transport failures *)

(** A transport failure makes the send return [False]; it also shows that
    reading the banner cannot abort this run. *)
Lemma transport_failure_caught w cfg r html :
  transport_failure w cfg r html →
  result (send w cfg r html) = Ret false
  ∧ (uses_outlook cfg = true ∨ banner_safe w).
Proof.
  unfold send.
  intros [Hu Hw | e Hu Hw He | msg e Hu Hmsg He]; rewrite Hu.
  - rewrite (send_via_outlook_unavailable _ _ _ _ Hw). auto.
  - rewrite (send_via_outlook_installed _ _ _ _ Hw).
    rewrite (try_except_caught _ _ _ _ He (isinstance_Exception e)). auto.
  - rewrite (send_via_smtp_embedded _ _ _ _ _ Hmsg). split.
    + erewrite try_except_caught; [done| |apply isinstance_Exception].
      by rewrite (result_bind_Raise _ _ _ He).
    + right. by apply smtp_embed_banner_Ret in Hmsg.
Qed.

(** Each row carries the name of the file it was made for. *)
Lemma outcomes_named w cfg html docs outs :
  Forall2 (λ d o, result (file_outcome w cfg html d) = Ret o) docs outs →
  o_file <$> outs = doc_name <$> docs.
Proof.
  induction 1 as [|d o docs outs Ho _ IH]; [done|]. cbn. f_equal; [|done].
  by apply file_outcome_status in Ho as [_ ?].
Qed.

(** C7. When the transport fails while the script is sending for one file,
    the failure is caught and the send returns [False]; the loop goes
    through the whole listing: that file gets a FAILED row, and every file
    before and after it gets its own row, those after it exactly as if the
    loop had been run on them alone.  [main] then ends with these rows and
    their counts; the only thing that can still stop it is the writing of
    the results file, which no transport has a part in. *)
Theorem transport_failure_is_contained w cfg pre d post r :
  result (parse_xlsx cfg d) = Ret (Some r) →
  transport_failure w cfg r (build_html_body w) →
  result (send w cfg r (build_html_body w)) = Ret false
  ∧ ∃ before after,
    result (for_loop (process_file w cfg (build_html_body w)) (pre ++ d :: post) [])
    = Ret (before ++ failed_row r :: after)%list
    ∧ length before = length pre
    ∧ length after = length post
    ∧ o_file <$> (before ++ failed_row r :: after)%list
      = doc_name <$> (pre ++ d :: post)%list
    ∧ result (for_loop (process_file w cfg (build_html_body w)) post []) = Ret after
    ∧ result (main w cfg (pre ++ d :: post))
      = match open_csv w with
        | None => Ret (Some (summary_of (before ++ failed_row r :: after)))
        | Some e => Raise e
        end.
Proof.
  intros Hr [Hsend Hsafe]%transport_failure_caught. split; [done|].
  destruct (for_loop_returns w cfg (build_html_body w) (pre ++ d :: post)%list [] Hsafe)
    as [l Hl].
  pose proof Hl as (outs & -> & Hall)%for_loop_process_file.
  rewrite app_nil_l in Hl.
  pose proof (outcomes_named _ _ _ _ _ Hall) as Hnames.
  apply Forall2_app_inv_l in Hall as (before & rest & Hpre & Hrest & ->).
  apply Forall2_cons_inv_l in Hrest as (o & after & Ho & Hpost & ->).
  rewrite (file_outcome_record _ _ _ _ _ Hr), Hsend in Ho. injection Ho as <-.
  exists before, after. split; [done|].
  split; [symmetry; by apply Forall2_length in Hpre|].
  split; [symmetry; by apply Forall2_length in Hpost|].
  split; [done|].
  split; [apply for_loop_process_file; by exists after|].
  rewrite main_nonempty by (by destruct pre). by rewrite Hl.
Qed.

Lemma transport_failure_is_contained_witness :
  let w := Sample.flaky_smtp "finance.xlsx" in
  let cfg := Sample.cfg_smtp in
  result (send w cfg Sample.rec_finance (build_html_body w)) = Ret false
  ∧ ∃ before after,
    result (for_loop (process_file w cfg (build_html_body w))
              ([Sample.doc_corrupt] ++ Sample.doc_nkelly :: [Sample.doc_jdoe]) [])
    = Ret (before ++ failed_row Sample.rec_finance :: after)%list
    ∧ length before = 1
    ∧ length after = 1
    ∧ o_file <$> (before ++ failed_row Sample.rec_finance :: after)%list
      = ["broken.xlsx"; "finance.xlsx"; "hr.xlsx"]
    ∧ result (for_loop (process_file w cfg (build_html_body w)) [Sample.doc_jdoe] [])
      = Ret after
    ∧ result (main w cfg ([Sample.doc_corrupt] ++ Sample.doc_nkelly :: [Sample.doc_jdoe]))
      = Ret (Some (summary_of (before ++ failed_row Sample.rec_finance :: after))).
Proof.
  apply (transport_failure_is_contained (Sample.flaky_smtp "finance.xlsx")
           Sample.cfg_smtp [Sample.doc_corrupt] Sample.doc_nkelly [Sample.doc_jdoe]
           Sample.rec_finance).
  - vm_compute. reflexivity.
  - eapply smtp_raises; vm_compute; reflexivity.
Defined.

(** The run of the witness, spelled out. *)
Example flaky_run :
  ∃ s, result (main (Sample.flaky_smtp "finance.xlsx") Sample.cfg_smtp
                 [Sample.doc_corrupt; Sample.doc_nkelly; Sample.doc_jdoe])
       = Ret (Some s)
       ∧ status <$> results s = ["SKIPPED"; "FAILED"; "SENT"]
       ∧ (sent s, failed s, skipped s) = (1, 1, 1).
Proof. eexists. split; [vm_compute; reflexivity|]. split; reflexivity. Qed.

(** The one way a run is cut short: the SMTP transport is selected and the
    banner file is there but cannot be read. *)
Example locked_banner_aborts :
  result (main Sample.locked_banner Sample.cfg_smtp [Sample.doc_nkelly])
  = Raise (Exn PermissionError "[Errno 13] Permission denied").
Proof. vm_compute. reflexivity. Qed.

(** * Further properties of the script *)

(** ** The shape of traces *)

Lemma trace_bind_cases {A B} (m : M A) (f : A → M B) :
  trace (m ≫= f)
  = (trace m ++ match result m with Ret a => trace (f a) | Raise _ => [] end)%list.
Proof. destruct m as [t [a|e]]; cbn; [done|by rewrite app_nil_r]. Qed.

Lemma result_bind_cases {A B} (m : M A) (f : A → M B) :
  result (m ≫= f) = match result m with Ret a => result (f a) | Raise e => Raise e end.
Proof. by destruct m as [t [a|e]]. Qed.

Lemma trace_try_except {A} (body : M A) cls handler :
  trace (try_except body cls handler)
  = (trace body ++ match result body with
                   | Ret _ => []
                   | Raise e => if isinstance e cls then trace (handler e) else []
                   end)%list.
Proof.
  destruct body as [t [a|e]]; cbn; [by rewrite app_nil_r|].
  destruct (isinstance e cls); cbn; [done|by rewrite app_nil_r].
Qed.

Lemma result_try_except {A} (body : M A) cls handler :
  result (try_except body cls handler)
  = match result body with
    | Ret a => Ret a
    | Raise e => if isinstance e cls then result (handler e) else Raise e
    end.
Proof. destruct body as [t [a|e]]; cbn; [done|]. by destruct (isinstance e cls). Qed.

(** [send_via_smtp], step by step: the banner, then the session, then one
    log line that tells how the session went. *)
Lemma send_via_smtp_steps w cfg r html :
  send_via_smtp w cfg r html
  = match smtp_embed_banner w (smtp_headers cfg r html) with
    | (t, Ret msg) =>
        match result (smtp_session w cfg r msg) with
        | Ret _ =>
            ((t ++ trace (smtp_session w cfg r msg)
                ++ [Log INFO ("[SENT] " ++ file r ++ " → " ++ to_email r)])%list,
             Ret true)
        | Raise e =>
            ((t ++ trace (smtp_session w cfg r msg)
                ++ [Log ERROR ("[FAILED] " ++ file r ++ " → " ++ to_email r
                               ++ " : " ++ exn_str e)])%list,
             Ret false)
        end
    | (t, Raise e) => (t, Raise e)
    end.
Proof.
  unfold send_via_smtp.
  destruct (smtp_embed_banner w (smtp_headers cfg r html)) as [t [msg|e]]; [|done].
  rewrite bind_Ret.
  destruct (smtp_session w cfg r msg) as [t' [[]|e']]; cbn; by rewrite ?app_nil_r.
Qed.

(** The banner step only ever logs. *)
Lemma smtp_embed_banner_trace w msg :
  trace (smtp_embed_banner w msg)
  = match open_banner w with
    | Raise e =>
        if isinstance e FileNotFoundError
        then [Log WARNING "Banner image not found — email will send without it."]
        else []
    | Ret _ => []
    end.
Proof.
  destruct (open_banner w) as [data|e] eqn:Hb.
  - by rewrite (smtp_embed_banner_read _ _ _ Hb).
  - destruct (isinstance e FileNotFoundError) eqn:He.
    + rewrite smtp_embed_banner_absent; [done|by exists e].
    + by rewrite (smtp_embed_banner_escapes _ _ _ Hb He).
Qed.

(** One pass of the loop body, step by step. *)
Lemma file_outcome_steps w cfg html d :
  file_outcome w cfg html d
  = match parse_xlsx cfg d with
    | (t, Ret None) =>
        ((Log INFO ("Processing: " ++ doc_name d) :: t), Ret (skipped_row (doc_name d)))
    | (t, Ret (Some r)) =>
        ((Log INFO ("Processing: " ++ doc_name d) :: t ++ trace (send w cfg r html))%list,
         match result (send w cfg r html) with
         | Ret ok => Ret {| o_file := file r; o_ritm := ritm r; o_aide_id := aide_id r;
                            o_aide_name := aide_name r; o_to_email := to_email r;
                            status := if ok then "SENT" else "FAILED";
                            error := if ok then "" else "See log" |}
         | Raise e => Raise e
         end)
    | (t, Raise e) => ((Log INFO ("Processing: " ++ doc_name d) :: t), Raise e)
    end.
Proof.
  unfold file_outcome. destruct (parse_xlsx cfg d) as [t [[r|]|e]]; cbn.
  - destruct (send w cfg r html) as [t' [ok|e]]; cbn; by rewrite ?app_nil_r.
  - by rewrite app_nil_r.
  - done.
Qed.

Lemma for_loop_trace w cfg html docs acc :
  trace (for_loop (process_file w cfg html) docs acc) = passes w cfg html docs.
Proof.
  revert acc. induction docs as [|d docs IH]; intros acc; [done|].
  cbn [for_loop passes]. rewrite trace_bind_cases. unfold process_file at 1 2.
  rewrite trace_bind_cases, result_bind_cases.
  destruct (file_outcome w cfg html d) as [t [o|e]]; cbn.
  - by rewrite IH, app_nil_r.
  - by rewrite !app_nil_r.
Qed.

(** The trace of [main] on a non-empty listing. *)
Lemma main_trace w cfg docs :
  docs ≠ [] →
  trace (main w cfg docs)
  = (Log INFO ("Found " ++ pretty (length docs) ++ " file(s) in " ++ INPUT_DIR w)
     :: passes w cfg (build_html_body w) docs
     ++ match result (main w cfg docs) with
        | Ret (Some s) =>
            [CsvWrite (csv_path w) (results s);
             Log INFO ("Results saved → " ++ csv_path w);
             Log INFO ("Done — Sent: " ++ pretty (sent s) ++ " | Failed: "
                       ++ pretty (failed s) ++ " | Skipped: " ++ pretty (skipped s))]
        | _ => []
        end)%list.
Proof.
  intros Hne. rewrite (main_nonempty _ _ _ Hne).
  destruct docs as [|d docs]; [done|]. unfold main.
  rewrite <- (for_loop_trace w cfg (build_html_body w) (d :: docs) []).
  unfold write_csv_log.
  destruct (for_loop _ _ _) as [t [l|e]], (open_csv w); cbn; by rewrite ?app_nil_r.
Qed.

(** ** The SMTP session *)

(** The message that leaves the banner step, when one does. *)
Lemma smtp_embed_banner_result w msg :
  result (smtp_embed_banner w msg)
  = match open_banner w with
    | Ret data => Ret (attach msg (banner_image data))
    | Raise e => if isinstance e FileNotFoundError then Ret msg else Raise e
    end.
Proof.
  destruct (open_banner w) as [data|e] eqn:Hb.
  - by rewrite (smtp_embed_banner_read _ _ _ Hb).
  - destruct (isinstance e FileNotFoundError) eqn:He.
    + rewrite smtp_embed_banner_absent; [done|by exists e].
    + by rewrite (smtp_embed_banner_escapes _ _ _ Hb He).
Qed.

Lemma smtp_session_script w cfg r msg :
  transport_events (trace (smtp_session w cfg r msg)) `prefix_of` smtp_script cfg r msg
  ∧ (result (smtp_session w cfg r msg) = Ret () →
     transport_events (trace (smtp_session w cfg r msg)) = smtp_script cfg r msg).
Proof.
  unfold smtp_session, with_server, smtp_script.
  smtp_cases w cfg r; cbn; (split; [by eexists|done]).
Qed.

Lemma transport_events_app t1 t2 :
  transport_events (t1 ++ t2) = (transport_events t1 ++ transport_events t2)%list.
Proof. apply List.filter_app. Qed.

Lemma smtp_embed_banner_quiet w msg :
  transport_events (trace (smtp_embed_banner w msg)) = [].
Proof.
  rewrite smtp_embed_banner_trace.
  destruct (open_banner w) as [|e]; [done|]. by destruct (isinstance e _).
Qed.

(** The events of a session: the attempts up to the first step that fails,
    and the hand-off when no call before it and not [sendmail] itself has
    failed; the session ends normally when moreover QUIT goes through. *)
Lemma smtp_session_exchange w cfg r msg :
  transport_events (trace (smtp_session w cfg r msg))
  = (attempted (smtp_steps w cfg r)
     ++ match first_fault (smtp_calls w cfg r) with
        | None =>
            [SmtpSendmail (SMTP_FROM cfg)
               (to_email r :: if truthy (CC_EMAIL cfg) then [CC_EMAIL cfg] else []) msg]
        | Some _ => []
        end)%list
  ∧ (result (smtp_session w cfg r msg) = Ret ()
     ↔ first_fault (smtp_calls w cfg r) = None ∧ smtp_quit (smtp w r) = None).
Proof.
  unfold smtp_session, with_server, smtp_calls, smtp_steps, first_fault, first_some.
  smtp_cases w cfg r; cbn; (split; [done|]);
    (split; [intros H; first [discriminate H|by split]
            |intros [H1 H2]; first [discriminate H1|discriminate H2|done]]).
Qed.

(** X1. Whatever the server does, one call of [send_via_smtp] talks to it in
    a fixed order: connect, STARTTLS only when [SMTP_USE_TLS] is set, login
    only when both [SMTP_USER] and [SMTP_PASSWORD] are set, then one
    [sendmail] naming the recipient and, when configured, the CC address.
    The exchange is made of the attempts up to and including the first step
    that fails, no later step being tried, and of the hand-off exactly when
    every step and [sendmail] went through.  The function returns [True]
    exactly when moreover the closing QUIT goes through; the exchange is
    then the whole script.  Nothing is exchanged when reading the banner
    raises. *)
Theorem smtp_exchange_follows_script w cfg r html :
  match result (smtp_embed_banner w (smtp_headers cfg r html)) with
  | Ret msg =>
      transport_events (trace (send_via_smtp w cfg r html))
      = (attempted (smtp_steps w cfg r)
         ++ match first_fault (smtp_calls w cfg r) with
            | None =>
                [SmtpSendmail (SMTP_FROM cfg)
                   (to_email r :: if truthy (CC_EMAIL cfg) then [CC_EMAIL cfg] else [])
                   msg]
            | Some _ => []
            end)%list
      ∧ (result (send_via_smtp w cfg r html) = Ret true
         ↔ first_fault (smtp_calls w cfg r) = None ∧ smtp_quit (smtp w r) = None)
      ∧ transport_events (trace (send_via_smtp w cfg r html))
          `prefix_of` smtp_script cfg r msg
      ∧ (result (send_via_smtp w cfg r html) = Ret true →
         transport_events (trace (send_via_smtp w cfg r html)) = smtp_script cfg r msg)
  | Raise _ => transport_events (trace (send_via_smtp w cfg r html)) = []
  end.
Proof.
  rewrite send_via_smtp_steps.
  pose proof (smtp_embed_banner_quiet w (smtp_headers cfg r html)) as Hq.
  destruct (smtp_embed_banner w (smtp_headers cfg r html)) as [t [msg|e]];
    cbn [result snd trace fst] in *; [|done].
  destruct (smtp_session_script w cfg r msg) as [Hpre Hfull].
  destruct (smtp_session_exchange w cfg r msg) as [Hex Hok].
  destruct (result (smtp_session w cfg r msg)) as [[]|e] eqn:Hs;
    cbn [result snd trace fst]; rewrite !transport_events_app, Hq; cbn [app];
    change (transport_events [Log _ _]) with ([] : list event); rewrite app_nil_r.
  - split; [done|]. split; [by rewrite <- Hok|]. split; [done|]. auto.
  - split; [done|]. split; [|split; [done|discriminate]].
    split; [discriminate|]. intros Hno. apply Hok in Hno. discriminate.
Qed.

(** The one hand-off a session can make. *)
Lemma smtp_session_sendmail w cfg r msg :
  Forall (λ ev, match ev with
                | SmtpSendmail from_addr recipients m =>
                    from_addr = SMTP_FROM cfg
                    ∧ recipients
                      = to_email r :: (if truthy (CC_EMAIL cfg) then [CC_EMAIL cfg] else [])
                    ∧ m = msg
                | _ => True
                end)
         (trace (smtp_session w cfg r msg)).
Proof.
  unfold smtp_session, with_server.
  smtp_cases w cfg r; cbn; repeat constructor.
Qed.

(** Every event of a call of [send_via_smtp] satisfies [P] when the log
    lines do and the events of the session do. *)
Lemma send_via_smtp_Forall (P : event → Prop) w cfg r html :
  (∀ l s, P (Log l s)) →
  (∀ msg, result (smtp_embed_banner w (smtp_headers cfg r html)) = Ret msg →
          Forall P (trace (smtp_session w cfg r msg))) →
  Forall P (trace (send_via_smtp w cfg r html)).
Proof.
  intros Hlog Hsess. rewrite send_via_smtp_steps.
  pose proof (smtp_embed_banner_trace w (smtp_headers cfg r html)) as Ht.
  destruct (smtp_embed_banner w (smtp_headers cfg r html)) as [t [msg|e]];
    cbn [trace fst result snd] in *.
  - assert (Forall P t) as Hbanner.
    { rewrite Ht. destruct (open_banner w) as [|e]; [constructor|].
      destruct (isinstance e _); repeat constructor. apply Hlog. }
    specialize (Hsess msg eq_refl).
    destruct (result (smtp_session w cfg r msg)) as [[]|e]; cbn [trace fst];
      rewrite !Forall_app; repeat split; auto; repeat constructor; apply Hlog.
  - rewrite Ht. destruct (open_banner w) as [|e']; [constructor|].
    destruct (isinstance e' _); repeat constructor. apply Hlog.
Qed.

(** X2. Every hand-off of [send_via_smtp] is addressed consistently: the
    envelope sender and the [From] header are [SMTP_FROM], the [To] header is
    the record's address, the [Cc] header is there exactly when [CC_EMAIL]
    is set, the envelope recipients are the [To] address followed by the
    [Cc] address when there is one, and the HTML part is the body passed in. *)
Theorem smtp_envelope_matches_headers w cfg r html :
  Forall (well_addressed cfg r html) (trace (send_via_smtp w cfg r html)).
Proof.
  apply send_via_smtp_Forall; [done|]. intros msg Hmsg.
  eapply Forall_impl; [apply smtp_session_sendmail|].
  intros [l s| |m'|h p| |u pw|from_addr recipients m|p rows]; try done.
  intros (-> & -> & ->). rewrite smtp_embed_banner_result in Hmsg.
  unfold well_addressed.
  destruct (open_banner w) as [data|e]; [|destruct (isinstance e _); [|done]];
    injection Hmsg as <-; cbn; by destruct (truthy (CC_EMAIL cfg)).
Qed.

Lemma Forall_omap_intro {A B} (f : A → option B) (Q : B → Prop) (l : list A) :
  Forall (λ x, ∀ y, f x = Some y → Q y) l → Forall Q (omap f l).
Proof.
  induction 1 as [|x l Hx _ IH]; cbn; [constructor|].
  destruct (f x) as [y|] eqn:Hf; [constructor; auto|done].
Qed.

(** X3. The image part of every message handed to the SMTP server is decided
    by the banner file alone: one inline JPEG part with content id
    [<orbit_banner>] holding the bytes of the file when it can be read, no
    image part when the file is absent. *)
Theorem smtp_image_part w cfg r html :
  Forall (λ m, msg_images m = match open_banner w with
                              | Ret data => [banner_image data]
                              | Raise _ => []
                              end)
         (smtp_sent (trace (send_via_smtp w cfg r html))).
Proof.
  apply Forall_omap_intro.
  apply send_via_smtp_Forall; [done|]. intros msg Hmsg.
  eapply Forall_impl; [apply smtp_session_sendmail|].
  intros [l s| |m'|h p| |u pw|from_addr recipients m|p rows]; try done.
  intros (_ & _ & ->) y [= <-]. rewrite smtp_embed_banner_result in Hmsg.
  destruct (open_banner w) as [data|e]; [|destruct (isinstance e _); [|done]];
    by injection Hmsg as <-.
Qed.

(** X4. A server that takes the message and then fails the closing QUIT makes
    [send_via_smtp] return [False] and log [FAILED] with the cause, although
    the message has been handed off to the recipient: a FAILED row does not
    say that no mail went out. *)
Theorem quit_failure_after_hand_off w cfg r html e :
  banner_safe w →
  smtp_connect (smtp w r) = None →
  smtp_starttls (smtp w r) = None →
  smtp_login (smtp w r) = None →
  smtp_sendmail (smtp w r) = None →
  smtp_quit (smtp w r) = Some e →
  result (send_via_smtp w cfg r html) = Ret false
  ∧ addressees (trace (send_via_smtp w cfg r html)) = [to_email r]
  ∧ last (trace (send_via_smtp w cfg r html))
    = Some (Log ERROR ("[FAILED] " ++ file r ++ " → " ++ to_email r
                       ++ " : " ++ exn_str e)).
Proof.
  intros Hb H1 H2 H3 H4 H5. rewrite send_via_smtp_steps.
  pose proof (smtp_embed_banner_trace w (smtp_headers cfg r html)) as Ht.
  pose proof (smtp_embed_banner_result w (smtp_headers cfg r html)) as Hr.
  destruct (smtp_embed_banner w (smtp_headers cfg r html)) as [t [msg|e']];
    cbn [trace fst result snd] in *.
  - assert (addressees t = []) as Hquiet.
    { rewrite Ht. destruct (open_banner w) as [|x]; [done|]. by destruct (isinstance x _). }
    assert (msg_To msg = to_email r) as Hto.
    { destruct (open_banner w) as [|x]; [|destruct (isinstance x _); [|done]];
        by injection Hr as ->. }
    unfold smtp_session, with_server. rewrite H1, H2, H3, H4, H5.
    destruct (SMTP_USE_TLS cfg), (truthy (SMTP_USER cfg) && truthy (SMTP_PASSWORD cfg)),
      (truthy (CC_EMAIL cfg)); cbn [result snd trace fst external mbind M_bind mret M_ret
                                    emit raise app];
      (split; [done|]); unfold addressees; rewrite omap_app, last_app;
      fold (addressees t); rewrite Hquiet; cbn; by rewrite Hto.
  - unfold banner_safe in Hb. destruct (open_banner w) as [|x]; [done|].
    by rewrite Hb in Hr.
Qed.

Lemma quit_failure_after_hand_off_witness :
  let w := Scenario.rude_world in
  let cfg := Sample.cfg_smtp in
  let r := Sample.rec_finance in
  let html := build_html_body w in
  result (send_via_smtp w cfg r html) = Ret false
  ∧ addressees (trace (send_via_smtp w cfg r html)) = ["nkelly13@corp.com"]
  ∧ last (trace (send_via_smtp w cfg r html))
    = Some (Log ERROR ("[FAILED] finance.xlsx → nkelly13@corp.com"
                       ++ " : (421, b'Service not available')")).
Proof.
  apply (quit_failure_after_hand_off Scenario.rude_world Sample.cfg_smtp
           Sample.rec_finance (build_html_body Scenario.rude_world)
           (Exn SMTPException "(421, b'Service not available')"));
    reflexivity.
Defined.

(** ** The Outlook automation *)

(** X5. [send_via_outlook] returns [True] exactly when pywin32 is installed
    and none of the automation calls it makes raises: [Dispatch],
    [CreateItem], setting [To], setting [CC] (a call made only when
    [CC_EMAIL] is set), setting [Subject], [Attachments.Add] (which raises
    when the banner file is absent), [SetProperty], setting [HTMLBody] and
    [Send].  It then has handed Outlook one item: addressed to the record,
    with the CC only when configured, the banner attached under the content
    id [orbit_banner] and the HTML body passed in.  In every other case it
    returns [False] and hands Outlook nothing. *)
Theorem outlook_hand_off w cfg r html :
  (result (send_via_outlook w cfg r html) = Ret true
   ↔ win32com_installed w = true
     ∧ ol_dispatch (outlook w r) = None ∧ ol_create_item (outlook w r) = None
     ∧ ol_set_to (outlook w r) = None
     ∧ (CC_EMAIL cfg ≠ "" → ol_set_cc (outlook w r) = None)
     ∧ ol_set_subject (outlook w r) = None
     ∧ ¬ banner_absent w ∧ ol_attach (outlook w r) = None
     ∧ ol_set_property (outlook w r) = None ∧ ol_set_body (outlook w r) = None
     ∧ ol_send (outlook w r) = None)
  ∧ (result (send_via_outlook w cfg r html) = Ret true
     ∨ result (send_via_outlook w cfg r html) = Ret false)
  ∧ outlook_sent (trace (send_via_outlook w cfg r html))
    = match result (send_via_outlook w cfg r html) with
      | Ret true => [outlook_item w cfg r html]
      | _ => []
      end.
Proof.
  rewrite <- outlook_calls_pass, send_via_outlook_steps, outlook_session_steps.
  destruct (win32com_installed w), (first_fault (outlook_calls w cfg r)); cbn;
    repeat split; auto; try discriminate; intros [? ?]; discriminate.
Qed.

(** ** Events of a send, of a pass and of a run *)

Lemma smtp_session_Forall (P : event → Prop) w cfg r msg :
  P (SmtpConnect (SMTP_HOST cfg) (SMTP_PORT cfg)) →
  P SmtpStartTls →
  P (SmtpLogin (SMTP_USER cfg) (SMTP_PASSWORD cfg)) →
  P (SmtpSendmail (SMTP_FROM cfg)
       (to_email r :: if truthy (CC_EMAIL cfg) then [CC_EMAIL cfg] else []) msg) →
  Forall P (trace (smtp_session w cfg r msg)).
Proof.
  intros H1 H2 H3 H4. unfold smtp_session, with_server.
  smtp_cases w cfg r; cbn; repeat constructor; assumption.
Qed.

Lemma send_via_outlook_Forall (P : event → Prop) w cfg r html :
  (∀ l s, P (Log l s)) →
  P OutlookDispatch →
  P (OutlookSend (outlook_item w cfg r html)) →
  Forall P (trace (send_via_outlook w cfg r html)).
Proof.
  intros Hlog H1 H2. rewrite send_via_outlook_steps, outlook_session_steps.
  destruct (win32com_installed w), (first_fault (outlook_calls w cfg r)); cbn;
    repeat constructor; auto.
Qed.

Lemma parse_xlsx_Forall (P : event → Prop) cfg d :
  (∀ l s, P (Log l s)) → Forall P (trace (parse_xlsx cfg d)).
Proof.
  intros Hlog. destruct (read_excel d) as [df|e] eqn:Hd.
  - destruct (all (required_values df)) eqn:Hall.
    + rewrite (parse_xlsx_record _ _ _ Hd Hall). constructor.
    + rewrite (parse_xlsx_missing _ _ _ Hd Hall). repeat constructor. apply Hlog.
  - rewrite (parse_xlsx_unreadable _ _ _ Hd). repeat constructor. apply Hlog.
Qed.

Lemma file_outcome_Forall (P : event → Prop) w cfg html d :
  (∀ l s, P (Log l s)) →
  (∀ r, result (parse_xlsx cfg d) = Ret (Some r) → Forall P (trace (send w cfg r html))) →
  Forall P (trace (file_outcome w cfg html d)).
Proof.
  intros Hlog Hsend. rewrite file_outcome_steps.
  pose proof (parse_xlsx_Forall P cfg d Hlog) as Hp.
  destruct (parse_xlsx cfg d) as [t [[r|]|e]]; cbn [trace fst] in *;
    constructor; auto.
  apply Forall_app. split; [done|]. by apply Hsend.
Qed.

Lemma passes_Forall (P : event → Prop) w cfg html docs :
  Forall (λ d, Forall P (trace (file_outcome w cfg html d))) docs →
  Forall P (passes w cfg html docs).
Proof.
  induction 1 as [|d docs Hd _ IH]; cbn [passes]; [constructor|].
  apply Forall_app. split; [done|].
  destruct (result (file_outcome w cfg html d)); [done|constructor].
Qed.

Lemma main_Forall (P : event → Prop) w cfg docs :
  (∀ l s, P (Log l s)) →
  (∀ p rows, P (CsvWrite p rows)) →
  (∀ d r, d ∈ docs → result (parse_xlsx cfg d) = Ret (Some r) →
          Forall P (trace (send w cfg r (build_html_body w)))) →
  Forall P (trace (main w cfg docs)).
Proof.
  intros Hlog Hcsv Hsend. destruct docs as [|d0 docs0] eqn:Hdocs.
  { cbn. repeat constructor. apply Hlog. }
  rewrite <- Hdocs in *. rewrite main_trace by (by subst).
  constructor; [apply Hlog|]. apply Forall_app. split.
  - apply passes_Forall, Forall_forall. intros d Hd.
    apply file_outcome_Forall; [done|]. intros r Hr. by apply (Hsend d r).
  - destruct (result (main w cfg docs)) as [[s|]|e]; repeat constructor; auto.
Qed.

(** The banner step leaves addresses, subject and body alone. *)
Lemma smtp_embed_banner_keeps w msg msg' :
  result (smtp_embed_banner w msg) = Ret msg' →
  msg_To msg' = msg_To msg ∧ msg_html msg' = msg_html msg
  ∧ msg_From msg' = msg_From msg ∧ msg_Cc msg' = msg_Cc msg.
Proof.
  rewrite smtp_embed_banner_result.
  destruct (open_banner w) as [data|e]; [|destruct (isinstance e _); [|done]];
    by intros [= <-].
Qed.

(** X6. A run never mixes transports: with [OUTLOOK] selected nothing is ever
    asked of an SMTP server, and with any other [SEND_METHOD] nothing is ever
    asked of Outlook, not even after a failure: there is no fallback. *)
Theorem no_transport_fallback w cfg docs :
  Forall (λ ev, if uses_outlook cfg then is_smtp_event ev = false
                else is_outlook_event ev = false)
         (trace (main w cfg docs)).
Proof.
  apply main_Forall.
  - intros l s. by destruct (uses_outlook cfg).
  - intros p rows. by destruct (uses_outlook cfg).
  - intros d r _ _. unfold send. destruct (uses_outlook cfg).
    + by apply send_via_outlook_Forall.
    + apply send_via_smtp_Forall; [done|]. intros msg _.
      by apply smtp_session_Forall.
Qed.

(** X7. The HTML body is rendered once per run: every message handed to a
    transport during the run, by either path, carries the text that
    [build_html_body] returned. *)
Theorem one_body_for_all_messages w cfg docs :
  Forall (λ ev, match ev with
                | OutlookSend m => mi_HTMLBody m = build_html_body w
                | SmtpSendmail _ _ m => msg_html m = build_html_body w
                | _ => True
                end)
         (trace (main w cfg docs)).
Proof.
  apply main_Forall; [done..|].
  intros d r _ _. unfold send. destruct (uses_outlook cfg).
  - by apply send_via_outlook_Forall.
  - apply send_via_smtp_Forall; [done|]. intros msg Hmsg.
    apply smtp_session_Forall; try done.
    by apply smtp_embed_banner_keeps in Hmsg as (_ & Hhtml & _).
Qed.

(** ** Runs that are cut short *)

Lemma send_raises_iff w cfg r html e :
  result (send w cfg r html) = Raise e ↔
  uses_outlook cfg = false ∧ open_banner w = Raise e
  ∧ isinstance e FileNotFoundError = false.
Proof.
  unfold send. destruct (uses_outlook cfg).
  - destruct (send_via_outlook_returns w cfg r html) as [b ->].
    split; [done|]. by intros (? & _).
  - split.
    + by intros ?%send_via_smtp_raises.
    + intros (_ & Hb & He). unfold send_via_smtp.
      by rewrite (smtp_embed_banner_escapes _ _ _ Hb He).
Qed.

Lemma file_outcome_raises_iff w cfg html d e :
  result (file_outcome w cfg html d) = Raise e ↔
  yields_record cfg d ∧ uses_outlook cfg = false ∧ open_banner w = Raise e
  ∧ isinstance e FileNotFoundError = false.
Proof.
  unfold yields_record. destruct (parse_xlsx_returns cfg d) as [[r|] Hp].
  - rewrite (file_outcome_record _ _ _ _ _ Hp), <- (send_raises_iff w cfg r html e).
    destruct (result (send w cfg r html)) as [ok|e'].
    + split; [done|]. by intros (_ & ?).
    + split; [|by intros (_ & [= ->])]. intros [= ->]. split; [by exists r|done].
  - rewrite file_outcome_steps.
    destruct (parse_xlsx cfg d) as [t [o|e']]; cbn in Hp; [|done].
    injection Hp as ->. cbn. split; [done|]. by intros ((r & ?) & _).
Qed.

Lemma for_loop_raises_iff w cfg html docs acc e :
  result (for_loop (process_file w cfg html) docs acc) = Raise e ↔
  Exists (yields_record cfg) docs ∧ uses_outlook cfg = false
  ∧ open_banner w = Raise e ∧ isinstance e FileNotFoundError = false.
Proof.
  revert acc. induction docs as [|d docs IH]; intros acc; cbn [for_loop].
  - split; [done|]. by intros (?%Exists_nil & _).
  - rewrite result_bind_cases. unfold process_file at 1. rewrite result_bind_cases.
    destruct (result (file_outcome w cfg html d)) as [o|e'] eqn:Ho.
    + cbn. rewrite IH, Exists_cons. split; [intros (? & ?); auto|].
      intros ([Hd|?] & Hu & Hb & He); [|done].
      assert (result (file_outcome w cfg html d) = Raise e) as Hr
        by (by apply file_outcome_raises_iff).
      congruence.
    + apply file_outcome_raises_iff in Ho as (Hd & Hu & Hb & He).
      rewrite Exists_cons. split.
      * intros [= <-]. auto.
      * intros (_ & _ & Hb' & _). congruence.
Qed.

Lemma csv_writes_none t :
  Forall (λ ev, match ev with CsvWrite _ _ => False | _ => True end) t →
  csv_writes t = [].
Proof.
  induction 1 as [|ev t Hev _ IH]; [done|]. by destruct ev.
Qed.

Lemma passes_no_csv w cfg html docs : csv_writes (passes w cfg html docs) = [].
Proof.
  apply csv_writes_none, passes_Forall, Forall_forall. intros d _.
  apply file_outcome_Forall; [done|]. intros r _. unfold send.
  destruct (uses_outlook cfg).
  - by apply send_via_outlook_Forall.
  - apply send_via_smtp_Forall; [done|]. intros msg _. by apply smtp_session_Forall.
Qed.

(** The results file is written once, by a run that ends on a non-empty
    listing, and holds the rows of that run. *)
Lemma main_csv_writes w cfg docs :
  csv_writes (trace (main w cfg docs))
  = match result (main w cfg docs) with
    | Ret (Some s) => [(csv_path w, results s)]
    | _ => []
    end.
Proof.
  destruct docs as [|d docs]; [done|].
  rewrite main_trace by done. cbn [csv_writes omap list_omap].
  unfold csv_writes. rewrite omap_app.
  fold (csv_writes (passes w cfg (build_html_body w) (d :: docs))).
  rewrite passes_no_csv.
  by destruct (result (main w cfg (d :: docs))) as [[s|]|e].
Qed.

Lemma for_loop_stops w cfg html docs acc e :
  result (for_loop (process_file w cfg html) docs acc) = Raise e
  ↔ banner_stops_run w cfg docs e.
Proof. rewrite for_loop_raises_iff. unfold banner_stops_run. tauto. Qed.

Lemma for_loop_Ret_iff w cfg html docs acc :
  (∃ l, result (for_loop (process_file w cfg html) docs acc) = Ret l)
  ↔ ¬ ∃ e, banner_stops_run w cfg docs e.
Proof.
  split.
  - intros [l Hl] (e & He%(for_loop_stops w cfg html docs acc)). congruence.
  - destruct (result (for_loop (process_file w cfg html) docs acc)) as [l|e] eqn:Hl;
      [by eauto|].
    intros Hno. destruct Hno. exists e. by apply for_loop_stops in Hl.
Qed.

(** The two ways an exception leaves [main]. *)
Lemma main_raises_iff w cfg docs e :
  result (main w cfg docs) = Raise e ↔
  banner_stops_run w cfg docs e
  ∨ (docs ≠ [] ∧ (¬ ∃ e', banner_stops_run w cfg docs e') ∧ open_csv w = Some e).
Proof.
  destruct docs as [|d docs].
  - split; [done|]. intros [(_ & ?%Exists_nil & _)|(? & _)]; done.
  - rewrite main_nonempty by done.
    rewrite <- (for_loop_Ret_iff w cfg (build_html_body w) (d :: docs) []).
    pose proof (for_loop_stops w cfg (build_html_body w) (d :: docs) [] e) as H.
    destruct (result (for_loop _ _ _)) as [l|e'].
    + split.
      * destruct (open_csv w) as [e'|]; [|done]. intros [= ->]. right. eauto.
      * intros [Hb|(_ & _ & ->)]; [|done]. apply H in Hb. done.
    + split.
      * intros [= ->]. left. by apply H.
      * intros [Hb|(_ & [l [=]] & _)]. apply H in Hb. by injection Hb as ->.
Qed.

(** X8. The two ways a run is cut short.  [main] lets an exception escape
    exactly when reading the banner stops the run (the SMTP transport is
    selected, some file of the listing yields a record, and opening the
    banner raises something other than [FileNotFoundError]), or when the
    loop has gone through every file and writing the results file raises.
    The exception is the one raised there, and in both cases the run ends
    without a results file, whatever rows the loop had made. *)
Theorem run_cut_short w cfg docs e :
  (result (main w cfg docs) = Raise e ↔
   (uses_outlook cfg = false ∧ Exists (yields_record cfg) docs
    ∧ open_banner w = Raise e ∧ isinstance e FileNotFoundError = false)
   ∨ (docs ≠ []
      ∧ (¬ ∃ e', uses_outlook cfg = false ∧ Exists (yields_record cfg) docs
                 ∧ open_banner w = Raise e' ∧ isinstance e' FileNotFoundError = false)
      ∧ open_csv w = Some e))
  ∧ (result (main w cfg docs) = Raise e → csv_writes (trace (main w cfg docs)) = []).
Proof.
  split; [apply main_raises_iff|].
  intros Hr. by rewrite main_csv_writes, Hr.
Qed.

(** X9. The results file is written at most once per run: exactly once, with
    all the rows of the run in it, when the run ends on a non-empty listing,
    and not at all on an empty listing or when the run is cut short. *)
Theorem results_written_once w cfg docs :
  csv_writes (trace (main w cfg docs))
  = match result (main w cfg docs) with
    | Ret (Some s) => [(csv_path w, results s)]
    | _ => []
    end.
Proof. apply main_csv_writes. Qed.

(** ** Accounting *)



(** The other way: the loop records the failed send, then the results file
    cannot be created, and the run ends with the exception and no file. *)
Example results_file_failure_aborts :
  let run := main Scenario.no_results_file Sample.cfg_outlook [Sample.doc_nkelly] in
  result run = Raise (Exn FileNotFoundError "[Errno 2] No such file or directory")
  ∧ result (for_loop (process_file Scenario.no_results_file Sample.cfg_outlook
                        (build_html_body Scenario.no_results_file))
              [Sample.doc_nkelly] [])
    = Ret [failed_row Sample.rec_finance]
  ∧ csv_writes (trace run) = [].
Proof. repeat split; vm_compute; reflexivity. Qed.

(** ** Rows and files *)

Lemma main_from_outcomes w cfg docs outs :
  Forall2 (λ d o, result (file_outcome w cfg (build_html_body w) d) = Ret o) docs outs →
  open_csv w = None →
  ∃ s, result (main w cfg docs) = Ret s ∧ outcomes_of s = outs.
Proof.
  intros H Hcsv. destruct docs as [|d docs].
  - apply Forall2_nil_inv_l in H as ->. by exists None.
  - rewrite main_nonempty, Hcsv by done.
    assert (result (for_loop (process_file w cfg (build_html_body w)) (d :: docs) [])
            = Ret outs) as ->.
    { apply for_loop_process_file. by exists outs. }
    eauto.
Qed.

(** X10. The rows of a finished run stand in the order of the listing, each
    under the name of the file it was made for. *)
Theorem rows_in_listing_order w cfg docs s :
  result (main w cfg docs) = Ret s →
  o_file <$> outcomes_of s = doc_name <$> docs.
Proof.
  intros [Hall _]%main_results. by apply outcomes_named in Hall.
Qed.

Lemma rows_in_listing_order_witness :
  ∃ s, result (main (Sample.flaky_smtp "finance.xlsx") Sample.cfg_smtp
                 [Sample.doc_corrupt; Sample.doc_nkelly; Sample.doc_jdoe]) = Ret s
       ∧ o_file <$> outcomes_of s = ["broken.xlsx"; "finance.xlsx"; "hr.xlsx"].
Proof.
  eexists. split; [vm_compute; reflexivity|].
  apply (rows_in_listing_order (Sample.flaky_smtp "finance.xlsx") Sample.cfg_smtp
           [Sample.doc_corrupt; Sample.doc_nkelly; Sample.doc_jdoe]).
  vm_compute. reflexivity.
Defined.

Lemma has_at_intro s1 s2 : has_at (s1 ++ "@" ++ s2).
Proof. by exists s1, s2. Qed.

(** X12. What a row says, for every pass that ends.  The status is SKIPPED
    exactly when the file yields no record, and the row is then blank but
    for the file name and the fixed error text.  Otherwise the row carries
    the record: three non-empty identifiers and an address containing [@].
    The error column is empty exactly for SENT rows, and FAILED rows say
    [See log]. *)
Theorem row_invariant w cfg html d o :
  result (file_outcome w cfg html d) = Ret o →
  (status o = "SKIPPED" ↔ ¬ yields_record cfg d)
  ∧ (status o = "SKIPPED" → o = skipped_row (doc_name d))
  ∧ (status o ≠ "SKIPPED" →
     o_ritm o ≠ "" ∧ o_aide_id o ≠ "" ∧ o_aide_name o ≠ "" ∧ has_at (o_to_email o)
     ∧ result (parse_xlsx cfg d)
       = Ret (Some {| file := o_file o; ritm := o_ritm o; aide_id := o_aide_id o;
                      aide_name := o_aide_name o; to_email := o_to_email o |}))
  ∧ (error o = "" ↔ status o = "SENT")
  ∧ (status o = "FAILED" → error o = "See log").
Proof.
  unfold yields_record. destruct (parse_xlsx_returns cfg d) as [[r|] Hp].
  - rewrite (file_outcome_record _ _ _ _ _ Hp).
    pose proof Hp as (df & Hd & Hall & _ & Hr)%parse_xlsx_Some.
    apply all_Forall in Hall. unfold required_values, required_keys in Hall.
    cbn [fmap list_fmap] in Hall.
    apply Forall_cons in Hall as [H1 Hall]. apply Forall_cons in Hall as [H2 Hall].
    apply Forall_cons in Hall as [H3 Hall]. apply Forall_cons in Hall as [H4 _].
    assert (has_at (to_email r)) as Hat.
    { rewrite Hr. cbn. destruct (contains_char "@" _) eqn:Hc.
      - by apply has_at_contains.
      - apply has_at_intro. }
    assert (ritm r ≠ "" ∧ aide_id r ≠ "" ∧ aide_name r ≠ "") as (? & ? & ?)
      by (by rewrite Hr).
    destruct r as [f i a n t]. cbn in *.
    destruct (result (send _ _ _ _)) as [[|]|e]; intros [= <-]; cbn.
    + split; [split; [done|]; intros Hn; destruct Hn; eauto|].
      split; [done|]. split; [by intros _|]. by split.
    + split; [split; [done|]; intros Hn; destruct Hn; eauto|].
      split; [done|]. split; [by intros _|]. by split.
  - rewrite file_outcome_steps.
    destruct (parse_xlsx cfg d) as [t [x|e]]; cbn in Hp; [|done].
    injection Hp as ->. cbn. intros [= <-]. cbn.
    split; [split; [|done]; intros _ (r & [=])|].
    split; [done|]. split; [done|]. by split.
Qed.

Lemma row_invariant_witness :
  let o := failed_row Sample.rec_finance in
  let d := Sample.doc_nkelly in
  (status o = "SKIPPED" ↔ ¬ yields_record Sample.cfg_smtp d)
  ∧ (status o = "SKIPPED" → o = skipped_row (doc_name d))
  ∧ (status o ≠ "SKIPPED" →
     o_ritm o ≠ "" ∧ o_aide_id o ≠ "" ∧ o_aide_name o ≠ "" ∧ has_at (o_to_email o)
     ∧ result (parse_xlsx Sample.cfg_smtp d)
       = Ret (Some {| file := o_file o; ritm := o_ritm o; aide_id := o_aide_id o;
                      aide_name := o_aide_name o; to_email := o_to_email o |}))
  ∧ (error o = "" ↔ status o = "SENT")
  ∧ (status o = "FAILED" → error o = "See log").
Proof.
  apply (row_invariant (Sample.flaky_smtp "finance.xlsx") Sample.cfg_smtp
           (build_html_body (Sample.flaky_smtp "finance.xlsx")) Sample.doc_nkelly).
  vm_compute. reflexivity.
Defined.

(** ** Who was written to *)

Lemma addressees_app t1 t2 : addressees (t1 ++ t2) = (addressees t1 ++ addressees t2)%list.
Proof. apply omap_app. Qed.

Lemma addressees_none t :
  Forall (λ ev, is_transport_event ev = false) t → addressees t = [].
Proof. induction 1 as [|ev t Hev _ IH]; [done|]. by destruct ev. Qed.

Lemma transport_events_none t :
  Forall (λ ev, is_transport_event ev = false) t → transport_events t = [].
Proof.
  induction 1 as [|ev t Hev _ IH]; [done|]. unfold transport_events in *. cbn.
  by rewrite Hev.
Qed.

Lemma smtp_session_addressees w cfg r msg :
  (addressees (trace (smtp_session w cfg r msg)) = []
   ∨ addressees (trace (smtp_session w cfg r msg)) = [msg_To msg])
  ∧ (result (smtp_session w cfg r msg) = Ret () →
     addressees (trace (smtp_session w cfg r msg)) = [msg_To msg]).
Proof.
  unfold smtp_session, with_server.
  smtp_cases w cfg r; cbn; split; auto; discriminate.
Qed.

Lemma send_via_smtp_addressees w cfg r html :
  (addressees (trace (send_via_smtp w cfg r html)) = []
   ∨ addressees (trace (send_via_smtp w cfg r html)) = [to_email r])
  ∧ (result (send_via_smtp w cfg r html) = Ret true →
     addressees (trace (send_via_smtp w cfg r html)) = [to_email r]).
Proof.
  rewrite send_via_smtp_steps.
  pose proof (smtp_embed_banner_trace w (smtp_headers cfg r html)) as Ht.
  destruct (smtp_embed_banner w (smtp_headers cfg r html)) as [t [msg|e]] eqn:Hm;
    cbn [trace fst result snd] in *.
  - assert (addressees t = []) as Hquiet.
    { rewrite Ht. destruct (open_banner w) as [|x]; [done|]. by destruct (isinstance x _). }
    assert (msg_To msg = to_email r) as Hto.
    { eapply (smtp_embed_banner_keeps w (smtp_headers cfg r html)). by rewrite Hm. }
    destruct (smtp_session_addressees w cfg r msg) as [Hor Hok]. rewrite Hto in *.
    destruct (result (smtp_session w cfg r msg)) as [[]|e]; cbn [trace fst result snd];
      rewrite !addressees_app, Hquiet;
      change (addressees [Log _ _]) with ([] : list string);
      rewrite app_nil_r; cbn [app].
    + rewrite Hok by done. auto.
    + split; [done|discriminate].
  - assert (addressees t = []) as ->; [|split; [auto|discriminate]].
    rewrite Ht. destruct (open_banner w) as [|x]; [done|]. by destruct (isinstance x _).
Qed.

Lemma send_via_outlook_addressees w cfg r html :
  addressees (trace (send_via_outlook w cfg r html))
  = match result (send_via_outlook w cfg r html) with
    | Ret true => [to_email r]
    | _ => []
    end.
Proof.
  rewrite send_via_outlook_steps, outlook_session_steps.
  by destruct (win32com_installed w), (first_fault (outlook_calls w cfg r)).
Qed.

Lemma send_addressees w cfg r html :
  (addressees (trace (send w cfg r html)) = []
   ∨ addressees (trace (send w cfg r html)) = [to_email r])
  ∧ (result (send w cfg r html) = Ret true →
     addressees (trace (send w cfg r html)) = [to_email r]).
Proof.
  unfold send. destruct (uses_outlook cfg); [|apply send_via_smtp_addressees].
  rewrite send_via_outlook_addressees.
  destruct (result (send_via_outlook w cfg r html)) as [[|]|e]; split; auto; discriminate.
Qed.

(** X13. What the rows promise about mail.  In one pass at most one message
    is handed to a transport, and it goes to the address in the row; a SENT
    row means that exactly one message was handed off to that address, and
    for a SKIPPED row the script has not talked to a transport at all. *)
Theorem rows_and_mail w cfg html d o :
  result (file_outcome w cfg html d) = Ret o →
  (addressees (trace (file_outcome w cfg html d)) = []
   ∨ addressees (trace (file_outcome w cfg html d)) = [o_to_email o])
  ∧ (status o = "SENT" →
     addressees (trace (file_outcome w cfg html d)) = [o_to_email o])
  ∧ (status o = "SKIPPED" → transport_events (trace (file_outcome w cfg html d)) = []).
Proof.
  rewrite file_outcome_steps.
  pose proof (parse_xlsx_Forall (λ ev, is_transport_event ev = false) cfg d) as Hp.
  destruct (parse_xlsx cfg d) as [t [[r|]|e]]; cbn [trace fst result snd] in *;
    [| |done].
  - destruct (send_addressees w cfg r html) as [Hor Hok].
    assert (addressees t = []) as Hquiet by (apply addressees_none; auto).
    destruct (result (send w cfg r html)) as [[|]|e]; intros [= <-];
      cbn [status o_to_email addressees omap list_omap];
      fold (addressees (t ++ trace (send w cfg r html)));
      rewrite addressees_app, Hquiet; cbn [app].
    + rewrite Hok by done. split; [by right|]. split; [done|]. intros [=].
    + split; [done|]. split; intros [=].
  - intros [= <-]. cbn [status skipped_row].
    split; [left; apply (addressees_none (_ :: _)); constructor; auto|].
    split; [done|]. intros _.
    apply (transport_events_none (_ :: _)). constructor; auto.
Qed.

Lemma rows_and_mail_witness :
  let w := Sample.with_banner in
  let cfg := Sample.cfg_smtp in
  let html := build_html_body w in
  let d := Sample.doc_jdoe in
  ∃ o, result (file_outcome w cfg html d) = Ret o
       ∧ o_to_email o = "jdoe@other.com"
       ∧ status o = "SENT"
       ∧ (addressees (trace (file_outcome w cfg html d)) = []
          ∨ addressees (trace (file_outcome w cfg html d)) = [o_to_email o])
       ∧ (status o = "SENT" →
          addressees (trace (file_outcome w cfg html d)) = [o_to_email o])
       ∧ (status o = "SKIPPED" →
          transport_events (trace (file_outcome w cfg html d)) = []).
Proof.
  eexists. split; [vm_compute; reflexivity|]. split; [reflexivity|].
  split; [reflexivity|].
  apply (rows_and_mail Sample.with_banner Sample.cfg_smtp
           (build_html_body Sample.with_banner) Sample.doc_jdoe).
  vm_compute. reflexivity.
Defined.

(** X14. The last thing a send does is say how it went: when it returns
    [True] its last event is the INFO line [[SENT] file → address], when
    it returns [False] its last event is an ERROR line, and when reading the
    banner makes it raise it has logged and done nothing. *)
Theorem send_ends_with_its_verdict w cfg r html :
  match result (send w cfg r html) with
  | Ret true =>
      last (trace (send w cfg r html))
      = Some (Log INFO ("[SENT] " ++ file r ++ " → " ++ to_email r))
  | Ret false => ∃ text, last (trace (send w cfg r html)) = Some (Log ERROR text)
  | Raise _ => trace (send w cfg r html) = []
  end.
Proof.
  unfold send. destruct (uses_outlook cfg).
  - rewrite send_via_outlook_steps, outlook_session_steps.
    destruct (win32com_installed w), (first_fault (outlook_calls w cfg r)); cbn; eauto.
  - rewrite send_via_smtp_steps.
    pose proof (smtp_embed_banner_trace w (smtp_headers cfg r html)) as Ht.
    pose proof (smtp_embed_banner_result w (smtp_headers cfg r html)) as Hr.
    destruct (smtp_embed_banner w (smtp_headers cfg r html)) as [t [msg|e]];
      cbn [trace fst result snd] in *.
    + destruct (result (smtp_session w cfg r msg)) as [[]|e];
        cbn [trace fst result snd]; rewrite !app_assoc, last_snoc; eauto.
    + rewrite Ht. destruct (open_banner w) as [|x]; [done|].
      by destruct (isinstance x _).
Qed.

(** ** Outlook out of order *)

Lemma send_via_outlook_never_sends w cfg r html :
  win32com_installed w = false ∨ banner_absent w →
  result (send_via_outlook w cfg r html) = Ret false
  ∧ Forall (λ ev, match ev with OutlookSend _ | SmtpSendmail _ _ _ => False | _ => True end)
           (trace (send_via_outlook w cfg r html)).
Proof.
  intros [Hw|[e He]%(banner_absent_fault w cfg r)].
  - rewrite (send_via_outlook_unavailable _ _ _ _ Hw). split; [done|]. by repeat constructor.
  - rewrite send_via_outlook_steps, outlook_session_steps, He.
    destruct (win32com_installed w); cbn; (split; [done|]); by repeat constructor.
Qed.

(** X15. With [OUTLOOK] selected on a machine without pywin32, or with the
    banner file missing, the loop still goes through every file, but no
    message is handed to any transport and no file is recorded as SENT:
    every file that yields a record is FAILED and every other file SKIPPED.
    The run ends with these rows unless writing the results file raises. *)
Theorem outlook_out_of_order w cfg docs :
  uses_outlook cfg = true →
  win32com_installed w = false ∨ banner_absent w →
  addressees (trace (main w cfg docs)) = []
  ∧ ∃ rows,
      Forall2 (λ d o, result (file_outcome w cfg (build_html_body w) d) = Ret o) docs rows
      ∧ Forall2 (λ d o, status o = match result (parse_xlsx cfg d) with
                                   | Ret (Some _) => "FAILED"
                                   | _ => "SKIPPED"
                                   end)
                docs rows
      ∧ (open_csv w = None →
         ∃ s, result (main w cfg docs) = Ret s ∧ outcomes_of s = rows)
      ∧ (∀ e, result (main w cfg docs) = Raise e → open_csv w = Some e).
Proof.
  intros Hu Hbad. split.
  - assert (Forall (λ ev, match ev with
                          | OutlookSend _ | SmtpSendmail _ _ _ => False
                          | _ => True
                          end) (trace (main w cfg docs))) as Hquiet.
    { apply main_Forall; [done..|]. intros d r _ _. unfold send. rewrite Hu.
      by apply send_via_outlook_never_sends. }
    induction Hquiet as [|ev t Hev _ IH]; [done|]. by destruct ev.
  - destruct (for_loop_returns w cfg (build_html_body w) docs [] (or_introl Hu))
      as [l Hl].
    apply for_loop_process_file in Hl as (rows & -> & Hall). exists rows.
    split; [done|]. split; [|split].
    + eapply Forall2_impl; [exact Hall|]. intros d o Ho. cbv beta in Ho.
      destruct (parse_xlsx_returns cfg d) as [[r|] Hp].
      * rewrite (file_outcome_record _ _ _ _ _ Hp) in Ho. unfold send in Ho.
        rewrite Hu in Ho.
        destruct (send_via_outlook_never_sends w cfg r (build_html_body w) Hbad)
          as [Hr _].
        rewrite Hr in Ho. injection Ho as <-. by rewrite Hp.
      * rewrite file_outcome_steps in Ho.
        destruct (parse_xlsx cfg d) as [t [x|e]]; cbn in Hp; [|done].
        injection Hp as ->. by injection Ho as <-.
    + by apply main_from_outcomes.
    + intros e [(Hsmtp & _)|(_ & _ & ?)]%main_raises_iff; [congruence|done].
Qed.

Lemma outlook_out_of_order_witness :
  let w := Scenario.no_win32com in
  let cfg := Sample.cfg_outlook in
  let docs := [Sample.doc_corrupt; Sample.doc_nkelly; Sample.doc_jdoe] in
  addressees (trace (main w cfg docs)) = []
  ∧ ∃ rows,
      Forall2 (λ d o, result (file_outcome w cfg (build_html_body w) d) = Ret o) docs rows
      ∧ Forall2 (λ d o, status o = match result (parse_xlsx cfg d) with
                                   | Ret (Some _) => "FAILED"
                                   | _ => "SKIPPED"
                                   end)
                docs rows
      ∧ (open_csv w = None →
         ∃ s, result (main w cfg docs) = Ret s ∧ outcomes_of s = rows)
      ∧ (∀ e, result (main w cfg docs) = Raise e → open_csv w = Some e).
Proof.
  apply (outlook_out_of_order Scenario.no_win32com Sample.cfg_outlook
           [Sample.doc_corrupt; Sample.doc_nkelly; Sample.doc_jdoe]).
  - reflexivity.
  - left. reflexivity.
Defined.

(** ** Clean fields *)


Lemma row_val_trimmed r : is_trimmed (row_val r).
Proof.
  unfold is_trimmed, row_val. destruct (iloc_rest r) as [|c1 rest]; [done|].
  destruct (notna c1); [apply strip_strip|done].
Qed.



Lemma get_clean df k :
  get (build_data df) k ≠ "" →
  is_trimmed (get (build_data df) k) ∧ lower (get (build_data df) k) ≠ "nan".
Proof.
  intros (pre & r & post & _ & Hr & _ & <- & _)%get_Some%build_data_lookup.
  apply row_kept_true in Hr as (_ & _ & ?). split; [apply row_val_trimmed|done].
Qed.

(** X17. The fields of a record are clean: the three identifiers have no
    whitespace at either end and are not the placeholder [nan], the record
    bears the name of its file, and the recipient address contains [@] and
    is made of the owner text of the sheet: the trimmed value of the last
    row that fills in [Application Owner], as it stands or followed by [@]
    and [EMAIL_DOMAIN]. *)
Theorem record_fields_are_clean cfg d r :
  result (parse_xlsx cfg d) = Ret (Some r) →
  file r = doc_name d
  ∧ is_trimmed (ritm r) ∧ is_trimmed (aide_id r) ∧ is_trimmed (aide_name r)
  ∧ lower (ritm r) ≠ "nan" ∧ lower (aide_id r) ≠ "nan" ∧ lower (aide_name r) ≠ "nan"
  ∧ has_at (to_email r)
  ∧ ∃ df owner_raw, read_excel d = Ret df
      ∧ last_filled df "Application Owner" owner_raw
      ∧ is_trimmed owner_raw ∧ lower owner_raw ≠ "nan"
      ∧ (to_email r = owner_raw ∨ to_email r = owner_raw ++ "@" ++ EMAIL_DOMAIN cfg).
Proof.
  intros (df & Hd & Hall & _ & ->)%parse_xlsx_Some. cbn.
  apply all_Forall in Hall. unfold required_values, required_keys in Hall.
  cbn [fmap list_fmap] in Hall.
  apply Forall_cons in Hall as [H1 Hall]. apply Forall_cons in Hall as [H2 Hall].
  apply Forall_cons in Hall as [H3 Hall]. apply Forall_cons in Hall as [H4 _].
  destruct (get_clean _ _ H1), (get_clean _ _ H2), (get_clean _ _ H3),
    (get_clean _ _ H4).
  do 7 (split; [done|]). split.
  - destruct (contains_char "@" _) eqn:Hc; [by apply has_at_contains|apply has_at_intro].
  - exists df, (get (build_data df) "Application Owner").
    split; [done|]. split; [by apply build_data_last_filled, get_Some|].
    split; [done|]. split; [done|]. destruct (contains_char "@" _); auto.
Qed.

Lemma record_fields_are_clean_witness :
  let r := Sample.rec_finance in
  file r = doc_name Sample.doc_nkelly
  ∧ is_trimmed (ritm r) ∧ is_trimmed (aide_id r) ∧ is_trimmed (aide_name r)
  ∧ lower (ritm r) ≠ "nan" ∧ lower (aide_id r) ≠ "nan" ∧ lower (aide_name r) ≠ "nan"
  ∧ has_at (to_email r)
  ∧ ∃ df owner_raw, read_excel Sample.doc_nkelly = Ret df
      ∧ last_filled df "Application Owner" owner_raw
      ∧ is_trimmed owner_raw ∧ lower owner_raw ≠ "nan"
      ∧ (to_email r = owner_raw
         ∨ to_email r = owner_raw ++ "@" ++ EMAIL_DOMAIN Sample.cfg_smtp).
Proof.
  apply (record_fields_are_clean Sample.cfg_smtp Sample.doc_nkelly Sample.rec_finance).
  vm_compute. reflexivity.
Defined.

(** ** The order of the rows of a sheet *)

Lemma build_data_lookup_nodup df k v :
  NoDup (row_key <$> filter (λ r, row_kept r = true) df) →
  build_data df !! k = Some v ↔
  ∃ r, r ∈ df ∧ row_kept r = true ∧ row_key r = k ∧ row_val r = v.
Proof.
  intros Hnd. rewrite build_data_lookup. split.
  - intros (pre & r & post & -> & Hr & Hk & Hv & _). exists r.
    split; [|done]. apply elem_of_app. right. apply elem_of_cons. by left.
  - intros (r & (pre & post & ->)%list_elem_of_split & Hr & Hk & Hv).
    exists pre, r, post. repeat split; try done.
    apply Forall_forall. intros r' Hin [Hr' Hk'].
    rewrite filter_app, filter_cons_True, fmap_app, fmap_cons in Hnd by done.
    apply NoDup_app in Hnd as (_ & _ & Hnd). apply NoDup_cons in Hnd as [Hnot _].
    apply Hnot. rewrite Hk, <- Hk'. apply list_elem_of_fmap. exists r'.
    split; [done|]. by apply list_elem_of_filter.
Qed.

(** X18. The order of the rows of a sheet does not matter as long as no key
    is carried by two rows that are kept: two sheets with the same rows in
    different orders then give the same lookup. *)
Theorem row_order_is_immaterial df1 df2 :
  df1 ≡ₚ df2 →
  NoDup (row_key <$> filter (λ r, row_kept r = true) df1) →
  build_data df1 = build_data df2.
Proof.
  intros Hperm Hnd1.
  assert (NoDup (row_key <$> filter (λ r, row_kept r = true) df2)) as Hnd2
    by (by rewrite <- Hperm).
  apply map_eq. intros k. apply option_eq. intros v.
  rewrite !build_data_lookup_nodup by done.
  split; intros (r & Hin & H); exists r; (split; [|done]).
  - by rewrite <- Hperm.
  - by rewrite Hperm.
Qed.

Lemma row_order_is_immaterial_witness :
  build_data (Sample.sheet "nkelly13") = build_data (reverse (Sample.sheet "nkelly13")).
Proof.
  apply (row_order_is_immaterial (Sample.sheet "nkelly13")
           (reverse (Sample.sheet "nkelly13"))).
  - symmetry. apply reverse_Permutation.
  - apply (bool_decide_unpack _). vm_compute. reflexivity.
Defined.

(** With a key on two kept rows the order does matter: the later row wins. *)
Example row_order_matters_for_duplicates :
  build_data [Sample.kv "RITM" "REQ1"; Sample.kv "RITM" "REQ2"] !! "RITM" = Some "REQ2"
  ∧ build_data [Sample.kv "RITM" "REQ2"; Sample.kv "RITM" "REQ1"] !! "RITM" = Some "REQ1".
Proof. split; vm_compute; reflexivity. Qed.

(** ** What of a sheet matters *)

Lemma store_row_essential data r k :
  k ∈ required_keys →
  store_row data r !! k
  = (if decide (relevant r)
     then store_row data (Row (iloc0 r) (take 1 (iloc_rest r)))
     else data) !! k.
Proof.
  intros Hk.
  assert (row_key (Row (iloc0 r) (take 1 (iloc_rest r))) = row_key r) as Hkey by done.
  assert (row_val (Row (iloc0 r) (take 1 (iloc_rest r))) = row_val r) as Hval
    by (unfold row_val; cbn; by destruct (iloc_rest r)).
  unfold store_row, row_kept. rewrite Hkey, Hval.
  destruct (decide (relevant r)) as [|Hirr]; [done|].
  destruct (_ && _); [|done]. apply lookup_insert_ne. intros Heq.
  apply Hirr. unfold relevant. by rewrite Heq.
Qed.

Lemma build_data_essential df k :
  k ∈ required_keys → build_data (essential df) !! k = build_data df !! k.
Proof.
  intros Hk. unfold essential.
  induction df as [|r df IH] using rev_ind; [done|].
  rewrite filter_app, fmap_app, build_data_snoc, store_row_essential by done.
  rewrite filter_cons, filter_nil.
  destruct (decide (relevant r)) as [Hr|Hr].
  - cbn [fmap list_fmap]. rewrite build_data_snoc.
    unfold store_row. destruct (row_kept _); [|done].
    destruct (decide (row_key (Row (iloc0 r) (take 1 (iloc_rest r))) = k)) as [Heq|Hne].
    + by rewrite <- Heq, !lookup_insert_eq.
    + by rewrite !lookup_insert_ne.
  - cbn [fmap list_fmap]. by rewrite app_nil_r.
Qed.

(** X19. Only the rows that carry one of the four required keys matter to
    [parse_xlsx], and of those only the first two columns: a sheet and the
    same sheet stripped of every other row and column give the same record,
    or the same refusal with the same log line. *)
Theorem only_required_rows_matter cfg name df :
  parse_xlsx cfg {| doc_name := name; read_excel := Ret (essential df) |}
  = parse_xlsx cfg {| doc_name := name; read_excel := Ret df |}.
Proof.
  assert (∀ k, k ∈ required_keys →
               get (build_data (essential df)) k = get (build_data df) k) as Hget.
  { intros k Hk. unfold get. by rewrite build_data_essential. }
  assert (required_values (essential df) = required_values df) as Hvals.
  { unfold required_values. apply list_fmap_ext. intros i k Hk. apply Hget.
    by eapply list_elem_of_lookup_2. }
  destruct (all (required_values df)) eqn:Hall.
  - rewrite (parse_xlsx_record cfg {| doc_name := name; read_excel := Ret df |}
               df eq_refl Hall).
    rewrite (parse_xlsx_record cfg {| doc_name := name; read_excel := Ret (essential df) |}
               (essential df) eq_refl) by (by rewrite Hvals).
    cbn [doc_name]. rewrite !Hget; [done|unfold required_keys; set_solver..].
  - rewrite (parse_xlsx_missing cfg {| doc_name := name; read_excel := Ret df |}
               df eq_refl Hall).
    rewrite (parse_xlsx_missing cfg {| doc_name := name; read_excel := Ret (essential df) |}
               (essential df) eq_refl) by (by rewrite Hvals).
    cbn [doc_name]. rewrite !Hget; [done|unfold required_keys; set_solver..].
Qed.

(** ** Mail and rows over a whole run *)

Lemma file_outcome_mail w cfg html d o :
  result (file_outcome w cfg html d) = Ret o →
  (status o = "SENT" ∧ addressees (trace (file_outcome w cfg html d)) = [o_to_email o])
  ∨ (status o = "FAILED"
     ∧ (addressees (trace (file_outcome w cfg html d)) = []
        ∨ (uses_outlook cfg = false
           ∧ addressees (trace (file_outcome w cfg html d)) = [o_to_email o])))
  ∨ (status o = "SKIPPED" ∧ addressees (trace (file_outcome w cfg html d)) = []).
Proof.
  rewrite file_outcome_steps.
  pose proof (parse_xlsx_Forall (λ ev, is_transport_event ev = false) cfg d) as Hp.
  destruct (parse_xlsx cfg d) as [t [[r|]|e]]; cbn [trace fst result snd] in *;
    [| |done].
  - destruct (send_addressees w cfg r html) as [Hor Hok].
    assert (addressees t = []) as Hquiet by (apply addressees_none; auto).
    assert (uses_outlook cfg = true → result (send w cfg r html) = Ret false →
            addressees (trace (send w cfg r html)) = []) as Hol.
    { unfold send. intros -> Hf. by rewrite send_via_outlook_addressees, Hf. }
    destruct (result (send w cfg r html)) as [[|]|e]; intros [= <-];
      cbn [status o_to_email addressees omap list_omap];
      fold (addressees (t ++ trace (send w cfg r html)));
      rewrite addressees_app, Hquiet; cbn [app].
    + left. split; [done|]. by apply Hok.
    + right. left. split; [done|].
      destruct (uses_outlook cfg); [left; by apply Hol|].
      destruct Hor as [?|?]; [by left|by right].
  - intros [= <-]. right. right. split; [done|].
    apply (addressees_none (_ :: _)). constructor; auto.
Qed.

Lemma passes_mail w cfg html docs outs :
  Forall2 (λ d o, result (file_outcome w cfg html d) = Ret o) docs outs →
  row_addresses (λ o, status o = "SENT") outs
    `sublist_of` addressees (passes w cfg html docs)
  ∧ addressees (passes w cfg html docs)
      `sublist_of` row_addresses (λ o, status o ≠ "SKIPPED") outs
  ∧ (uses_outlook cfg = true →
     addressees (passes w cfg html docs) = row_addresses (λ o, status o = "SENT") outs).
Proof.
  unfold row_addresses.
  induction 1 as [|d o docs outs Ho _ (IH1 & IH2 & IH3)]; [done|].
  cbn [passes]. rewrite Ho, addressees_app, !filter_cons.
  destruct (file_outcome_mail _ _ _ _ _ Ho)
    as [[Hs ->]|[[Hs [->|[Hu ->]]]|[Hs ->]]]; rewrite Hs;
    repeat (case_decide; try done); cbn [app fmap list_fmap].
  - split; [by apply sublist_skip|]. split; [by apply sublist_skip|].
    intros Hu. f_equal. by apply IH3.
  - split; [done|]. split; [by apply sublist_cons|]. done.
  - split; [by apply sublist_cons|]. split; [by apply sublist_skip|].
    intros Hu'. congruence.
Qed.

(** X20. Mail and rows agree over a whole run that ends.  The addresses of
    the SENT rows, in order, are among the addresses mail was handed off to,
    and those are among the addresses of the rows that are not SKIPPED; with
    Outlook the mail handed off is exactly the mail of the SENT rows. *)
Theorem mail_matches_rows w cfg docs s :
  result (main w cfg docs) = Ret s →
  row_addresses (λ o, status o = "SENT") (outcomes_of s)
    `sublist_of` addressees (trace (main w cfg docs))
  ∧ addressees (trace (main w cfg docs))
      `sublist_of` row_addresses (λ o, status o ≠ "SKIPPED") (outcomes_of s)
  ∧ (uses_outlook cfg = true →
     addressees (trace (main w cfg docs))
     = row_addresses (λ o, status o = "SENT") (outcomes_of s)).
Proof.
  intros Hs. pose proof (main_results _ _ _ _ Hs) as [Hall _].
  assert (addressees (trace (main w cfg docs))
          = addressees (passes w cfg (build_html_body w) docs)) as ->.
  { destruct docs as [|d docs]; [done|]. rewrite main_trace, Hs by done.
    cbn [addressees omap list_omap].
    fold (addressees (passes w cfg (build_html_body w) (d :: docs)
                      ++ match s with
                         | Some s0 =>
                             [CsvWrite (csv_path w) (results s0);
                              Log INFO ("Results saved → " ++ csv_path w);
                              Log INFO ("Done — Sent: " ++ pretty (sent s0)
                                        ++ " | Failed: " ++ pretty (failed s0)
                                        ++ " | Skipped: " ++ pretty (skipped s0))]
                         | None => []
                         end)).
    rewrite addressees_app. destruct s; by rewrite app_nil_r. }
  by apply passes_mail.
Qed.

Lemma mail_matches_rows_witness :
  let w := Scenario.rude_world in
  let cfg := Sample.cfg_smtp in
  let docs := [Sample.doc_corrupt; Sample.doc_nkelly] in
  ∃ s, result (main w cfg docs) = Ret s
   ∧ status <$> outcomes_of s = ["SKIPPED"; "FAILED"]
   ∧ addressees (trace (main w cfg docs)) = ["nkelly13@corp.com"]
   ∧ row_addresses (λ o, status o = "SENT") (outcomes_of s)
       `sublist_of` addressees (trace (main w cfg docs))
   ∧ addressees (trace (main w cfg docs))
       `sublist_of` row_addresses (λ o, status o ≠ "SKIPPED") (outcomes_of s)
   ∧ (uses_outlook cfg = true →
      addressees (trace (main w cfg docs))
      = row_addresses (λ o, status o = "SENT") (outcomes_of s)).
Proof.
  eexists. split; [vm_compute; reflexivity|]. split; [reflexivity|].
  split; [reflexivity|].
  apply (mail_matches_rows Scenario.rude_world Sample.cfg_smtp
           [Sample.doc_corrupt; Sample.doc_nkelly]).
  vm_compute. reflexivity.
Defined.
